(** * aijson-ml: the LLM invocation core

    A shallow embedding of [aijson_ml/utils/prompt_context.py] and
    [aijson_ml/actions/llm.py], and the properties of the invocation core
    established against it.

    Conventions of the embedding.
    - A Python [str] is a Rocq [string] holding the UTF-8 encoding of the
      text; [bytes] are a [string] too, and [bytes.decode()] is the strict
      UTF-8 check of [Utf8.decode].
    - A raised exception is the [Raise] alternative of [result]; the
      exception classes the code distinguishes are the constructors of [exn].
    - Library calls that leave this repository ([json.loads], [get_secret],
      litellm's tokenizer and trimmer, pydantic validation) are fields of the
      classes [PyRuntime], [Pydantic], [Litellm] and [Host]; every general
      theorem holds for all their instances.  [JsonRef.loads] is a small
      reference decoder used to run the definitions on concrete inputs.
    - An async generator over a finite stream is the list of the values it
      yields together with the way it ended ([stream]). *)

From Stdlib Require Import ZArith List Bool Ascii Lia.
From Stdlib Require Import Floats.PrimFloat.
From stdpp Require Import base option list strings gmap.

Set Warnings "-register-all".
Set Default Proof Using "Type".

Local Open Scope string_scope.
Local Open Scope list_scope.
Local Open Scope Z_scope.

(** ** Exceptions and results *)

Inductive exn : Type :=
| JSONDecodeError
| UnicodeDecodeError
| RuntimeError (msg : string)
| ValueError (msg : string)
| TypeError
| IndexError
| Base64Error
| NotFoundError       (* [litellm.utils.NotFoundError], an [openai.OpenAIError] *)
| TransientError      (* any other member of [retry_errors] *)
| OtherError.         (* any other exception of a callee *)

Inductive result (A : Type) : Type :=
| Ok (a : A)
| Raise (e : exn).
Arguments Ok {A} a.
Arguments Raise {A} e.

Definition rbind {A B} (k : A -> result B) (m : result A) : result B :=
  match m with
  | Ok a => k a
  | Raise e => Raise e
  end.

#[global] Instance result_bind : MBind result := @rbind.
#[global] Instance result_ret : MRet result := @Ok.

(** ** Strings *)

Definition LF : ascii := "010"%char.
Definition nl : string := String LF "".

(** [sep.join(l)] *)
Fixpoint join (sep : string) (l : list string) : string :=
  match l with
  | [] => ""
  | [x] => x
  | x :: xs => x +:+ sep +:+ join sep xs
  end.

(** [s.startswith(p)] *)
Fixpoint startswith (p s : string) : bool :=
  match p, s with
  | EmptyString, _ => true
  | String a p', String b s' => if Ascii.eqb a b then startswith p' s' else false
  | String _ _, EmptyString => false
  end.

(** [p in s] for strings: [p] occurs as a contiguous substring of [s]. *)
Fixpoint str_in (p s : string) : bool :=
  startswith p s ||
  match s with
  | EmptyString => false
  | String _ s' => str_in p s'
  end.

(** [bool(s)] for a [str] *)
Definition str_truthy (s : string) : bool :=
  match s with EmptyString => false | String _ _ => true end.

(** Test texts are written with apostrophes in place of double quotes:
    [json_text s] is [s] with every apostrophe turned into a double quote. *)
Fixpoint json_text (s : string) : string :=
  match s with
  | EmptyString => EmptyString
  | String c r =>
      String (if Ascii.eqb c "'" then "034"%char else c) (json_text r)
  end.

(** ** prompt_context.py *)

Inductive QuoteStyle : Type := BACKTICKS | XML.

Inductive Role : Type := user | system | assistant.

(** The three model classes deriving [PromptElementBase]. *)
Inductive PromptElementBase : Type :=
| RoleElement (role : Role)
| TextElement (text : string) (role : option Role)
| ContextElement (value heading : string).

(** [PromptElement = Union[RoleElement, TextElement, ContextElement, str]] *)
Inductive PromptElement : Type :=
| Elem (e : PromptElementBase)
| Str (s : string).

Definition as_string (e : PromptElementBase) (quote_style : QuoteStyle)
  : result string :=
  match e with
  | RoleElement _ =>
      Raise (RuntimeError "RoleElement cannot be converted to a string.")
  | TextElement text _ => Ok text
  | ContextElement value heading =>
      let valstr := value in
      match quote_style with
      | BACKTICKS => Ok (heading +:+ ":" +:+ nl +:+ "```" +:+ nl +:+ valstr +:+ nl +:+ "```")
      | XML => Ok ("<" +:+ heading +:+ ">" +:+ nl +:+ valstr +:+ nl +:+ "</" +:+ heading +:+ ">")
      end
  end.

(** ** llm.py: configuration and collaborators *)

Record ModelConfig : Type := {
  model : string;
  api_base : option string;
  auth_token : option string;
  max_output_tokens : option Z;
  max_prompt_tokens : Z;
}.

Record message : Type := Message {
  msg_role : Role;
  content : string;
}.

(** litellm's tokenizer and trimmer, used by [build_messages], and its
    pricing table, used by [estimate_cost]. *)
Class Litellm : Type := {
  token_counter : string -> list message -> Z;
  trim_messages : list message -> Z -> string -> option (list message);
  completion_cost : string -> list message -> string -> result float;
}.

(** ** llm.py: [Prompt.build_messages] *)

Definition resolve_quote_style (model_config : ModelConfig)
    (quote_style : option QuoteStyle) : QuoteStyle :=
  match quote_style with
  | Some q => q
  | None => if str_in "claude" (model model_config) then XML else BACKTICKS
  end.

(** The three [nonlocal] variables of [deposit_messages]. *)
Record bm_state : Type := {
  messages : list message;
  current_role : Role;
  current_message_elements : list string;
}.

Definition bm_init : bm_state :=
  {| messages := []; current_role := user; current_message_elements := [] |}.

Definition flush (st : bm_state) : list message :=
  match current_message_elements st with
  | [] => messages st
  | _ :: _ =>
      messages st ++
      [Message (current_role st) (join (nl +:+ nl) (current_message_elements st))]
  end.

Definition deposit_messages (st : bm_state) (new_role : Role) : bm_state :=
  {| messages := flush st;
     current_message_elements := [];
     current_role := new_role |}.

Definition append_element (st : bm_state) (as_str : string) : bm_state :=
  {| messages := messages st;
     current_role := current_role st;
     current_message_elements := current_message_elements st ++ [as_str] |}.

(** One iteration of [for prompt_element in message_config]. *)
Definition bm_step (quote_style : QuoteStyle) (st : bm_state)
    (prompt_element : PromptElement) : result bm_state :=
  match prompt_element with
  | Elem (RoleElement role) => Ok (deposit_messages st role)   (* continue *)
  | Elem (TextElement text role as e) =>
      let st := match role with
                | Some role => deposit_messages st role
                | None => st
                end in
      as_str ← as_string e quote_style;
      Ok (append_element st as_str)
  | Elem e =>
      as_str ← as_string e quote_style;
      Ok (append_element st as_str)
  | Str s => Ok (append_element st s)
  end.

Fixpoint bm_loop (quote_style : QuoteStyle) (st : bm_state)
    (message_config : list PromptElement) : result bm_state :=
  match message_config with
  | [] => Ok st
  | prompt_element :: rest =>
      st' ← bm_step quote_style st prompt_element;
      bm_loop quote_style st' rest
  end.

(** [prompt: str | list[PromptElement]] *)
Inductive prompt : Type :=
| PromptStr (s : string)
| PromptList (l : list PromptElement).

(** Lines 220-268: the message list before the token budget is applied. *)
Definition assemble (message_config : prompt) (quote_style : QuoteStyle)
  : result (list message) :=
  match message_config with
  | PromptStr s => Ok ([] ++ [Message user s])
  | PromptList l =>
      st ← bm_loop quote_style bm_init l;
      Ok (flush st)
  end.

Definition build_messages {LL : Litellm} (message_config : prompt)
    (model_config : ModelConfig) (quote_style : option QuoteStyle)
  : result (list message) :=
  let quote_style := resolve_quote_style model_config quote_style in
  messages ← assemble message_config quote_style;
  let token_count := token_counter (model model_config) messages in
  let max_prompt_tokens := max_prompt_tokens model_config in
  if token_count >? max_prompt_tokens then
    match trim_messages messages max_prompt_tokens (model model_config) with
    | None => Raise (ValueError "Failed to trim messages")
    | Some trimmed_messages => Ok trimmed_messages
    end
  else Ok messages.

(** ** Python values produced by [json.loads] *)

Inductive json : Type :=
| JNull
| JBool (b : bool)
| JInt (n : Z)
| JFloat (f : float)
| JStr (s : string)
| JArr (l : list json)
| JObj (kvs : list (string * json)).

(** A [dict] with [str] keys, in insertion order. *)
Abbreviation dict := (list (string * json)).

(** [bool(v)] *)
Definition truthy (v : json) : bool :=
  match v with
  | JNull => false
  | JBool b => b
  | JInt n => negb (n =? 0)
  | JFloat f => negb (PrimFloat.eqb f PrimFloat.zero)
  | JStr s => str_truthy s
  | JArr l => match l with [] => false | _ :: _ => true end
  | JObj kvs => match kvs with [] => false | _ :: _ => true end
  end.

Fixpoint dict_get (d : dict) (k : string) : option json :=
  match d with
  | [] => None
  | (k', v) :: d' => if String.eqb k' k then Some v else dict_get d' k
  end.

(** [d[k] = v]: an existing key keeps its position, a new key goes last. *)
Fixpoint dict_set (d : dict) (k : string) (v : json) : dict :=
  match d with
  | [] => [(k, v)]
  | (k', v') :: d' =>
      if String.eqb k' k then (k', v) :: d' else (k', v') :: dict_set d' k v
  end.

(** [d.update(other)] for a mapping [other], visited in its own order. *)
Definition dict_update (d other : dict) : dict :=
  fold_left (fun acc kv => dict_set acc kv.1 kv.2) other d.

(** The interpreter and library behaviour the code relies on.
    - [json_loads s] is [json.loads(s)]; malformed input is
      [Raise JSONDecodeError].
    - [ior_non_mapping d v] is [d |= v] for a decoded value [v] that is not
      an object: CPython then follows the sequence-of-pairs protocol of
      [dict.update], which raises for scalars and for most arrays. *)
Class PyRuntime : Type := {
  json_loads : string -> result json;
  ior_non_mapping : dict -> json -> result dict;
}.

(** [d |= v] *)
Definition dict_ior {RT : PyRuntime} (d : dict) (v : json) : result dict :=
  match v with
  | JObj other => Ok (dict_update d other)
  | _ => ior_non_mapping d v
  end.

(** Schema handling of the enclosing framework and of pydantic.
    [make_schema_object] is [JsonSchemaObject(type="object", properties=...)]
    ([None] for its [ValueError]); [model_validate m v] is [false] when
    pydantic raises [ValidationError]. *)
Class Pydantic : Type := {
  OutputSchema : Type;
  JsonSchemaObject : Type;
  PydanticModel : Type;
  make_schema_object : OutputSchema -> option JsonSchemaObject;
  model_dump : JsonSchemaObject -> json;
  jsonschema_to_pydantic : JsonSchemaObject -> PydanticModel;
  model_validate : PydanticModel -> json -> bool;
}.

(** ** Streams

    What an async generator yields over a finite run, and how the run ended:
    [None] when the generator returned, [Some e] when it raised [e]. *)
Record stream (A : Type) : Type := Stream {
  items : list A;
  ending : option exn;
}.
Arguments Stream {A} items ending.
Arguments items {A} s.
Arguments ending {A} s.

Definition yield_then {A} (xs : list A) (s : stream A) : stream A :=
  Stream (xs ++ items s) (ending s).

Definition raised {A} (e : exn) : stream A := Stream [] (Some e).
Definition returned {A} : stream A := Stream [] None.

(** ** UTF-8: [bytes.decode()] *)

Module Utf8.

Definition byte_in (lo hi : N) (c : ascii) : bool :=
  let n := N_of_ascii c in (lo <=? n)%N && (n <=? hi)%N.

Definition cont : ascii -> bool := byte_in 128 191.

(** Well-formed UTF-8 byte sequences (Unicode, table 3-7). *)
Fixpoint valid (s : string) : bool :=
  match s with
  | EmptyString => true
  | String a s1 =>
      if byte_in 0 127 a then valid s1 else
      match s1 with
      | EmptyString => false
      | String b s2 =>
          if byte_in 194 223 a then cont b && valid s2 else
          match s2 with
          | EmptyString => false
          | String c s3 =>
              if byte_in 224 239 a then
                (if N_of_ascii a =? 224 then byte_in 160 191 b
                 else if N_of_ascii a =? 237 then byte_in 128 159 b
                 else cont b)%N
                && cont c && valid s3
              else
              match s3 with
              | EmptyString => false
              | String d s4 =>
                  byte_in 240 244 a
                  && (if N_of_ascii a =? 240 then byte_in 144 191 b
                      else if N_of_ascii a =? 244 then byte_in 128 143 b
                      else cont b)%N
                  && cont c && cont d && valid s4
              end
          end
      end
  end.

(** [b.decode()]: the text, or [UnicodeDecodeError]. *)
Definition decode (b : string) : result string :=
  if valid b then Ok b else Raise UnicodeDecodeError.

End Utf8.

(** ** llm.py: [Prompt._invoke_ollama] *)

(** The pairs [(delta, tool_index)] a provider adapter yields.  The delta is
    a Python value: the SDKs hand over strings ([JStr]), the Ollama adapter
    whatever value sits under [message.content]. *)
Definition event : Type := json * option Z.

Definition process_completion {RT : PyRuntime} (completion : string)
  : result (option json) :=
  if negb (str_truthy completion) then Ok None else
  match json_loads completion with
  | Raise JSONDecodeError => Ok None
  | Raise e => Raise e
  | Ok data =>
      match data with
      | JObj d =>
          match dict_get d "message" with
          | Some (JObj m) =>
              match dict_get m "content" with
              | Some delta => if truthy delta then Ok (Some delta) else Ok None
              | None => Ok None
              end
          | _ => Ok None
          end
      | _ => Ok None
      end
  end.

(** [buffer.split("\n", 1)] when ["\n" in buffer], else [None]. *)
Fixpoint split_newline (buffer : string) : option (string * string) :=
  match buffer with
  | EmptyString => None
  | String c rest =>
      if Ascii.eqb c LF then Some (EmptyString, rest)
      else match split_newline rest with
           | Some (line, rest') => Some (String c line, rest')
           | None => None
           end
  end.

Definition to_events (completion : option json) : list event :=
  match completion with
  | Some c => [(c, None)]
  | None => []
  end.

(** [while "\n" in buffer: ...]; yields the events of the complete lines and
    returns the remaining buffer.  [fuel] bounds the number of iterations;
    one more than the length of the buffer always suffices. *)
Fixpoint drain_lines {RT : PyRuntime} (fuel : nat) (buffer : string)
  : list event * result string :=
  match fuel with
  | O => ([], Ok buffer)
  | S fuel' =>
      match split_newline buffer with
      | None => ([], Ok buffer)
      | Some (json_, buffer') =>
          match process_completion json_ with
          | Raise e => ([], Raise e)
          | Ok completion =>
              let '(evs, r) := drain_lines fuel' buffer' in
              (to_events completion ++ evs, r)
          end
      end
  end.

(** [async for completion in response.content.iter_any()] followed by the
    treatment of the trailing partial line.  [end_of_body] is how the
    chunk iterator ended. *)
Fixpoint ollama_body {RT : PyRuntime} (buffer : string) (chunks : list string)
    (end_of_body : option exn) : stream event :=
  match chunks with
  | [] =>
      match end_of_body with
      | Some e => raised e
      | None =>
          if str_truthy buffer then
            match process_completion buffer with
            | Raise e => raised e
            | Ok completion => Stream (to_events completion) None
            end
          else returned
      end
  | completion :: rest =>
      match Utf8.decode completion with
      | Raise e => raised e
      | Ok text =>
          let buffer := buffer +:+ text in
          let '(evs, r) := drain_lines (S (String.length buffer)) buffer in
          match r with
          | Raise e => Stream evs (Some e)
          | Ok buffer' => yield_then evs (ollama_body buffer' rest end_of_body)
          end
      end
  end.

(** The HTTP response of [session.post]. *)
Record http_response : Type := {
  status : Z;
  body_chunks : list string;
  body_end : option exn;
}.

Definition invoke_ollama {RT : PyRuntime} (response : http_response)
  : stream event :=
  if 400 <=? status response then raised TransientError   (* raise_for_status *)
  else ollama_body "" (body_chunks response) (body_end response).

(** ** llm.py: [Prompt._invoke_litellm] *)

Record function_tool : Type := {
  tool_type : string;
  function_name : string;
  function_parameters : json;
}.

Inductive schema_kwargs : Type :=
| NoSchemaKwargs
| ResponseFormat (type_ name : string) (schema : json) (strict : bool)
| ToolCalling (tool_choice : string) (tools : list function_tool).

Definition use_tool_calling (model_config : ModelConfig) : bool :=
  negb (str_in "gpt" (model model_config)).

Definition make_schema_kwargs {PD : Pydantic} (model_config : ModelConfig)
    (schema : option JsonSchemaObject) : schema_kwargs :=
  match schema with
  | None => NoSchemaKwargs
  | Some schema =>
      let json_schema := model_dump schema in
      if negb (use_tool_calling model_config) then
        ResponseFormat "json_schema" "function" json_schema true
      else
        ToolCalling "required"
          [ {| tool_type := "function";
               function_name := "function";
               function_parameters := json_schema |} ]
  end.

(** Whether an [AsyncOpenAI] client is created (and closed in [finally]). *)
Definition creates_openai_client (model_config : ModelConfig) : bool :=
  startswith "gpt" (model model_config).

Record tool_call : Type := {
  index : Z;
  arguments : option string;
}.

(** [completion.choices[0].delta] *)
Record delta_obj : Type := {
  delta_content : option string;
  tool_calls : option (list tool_call);
}.

Record model_response : Type := { choices : list delta_obj }.

(** The body of [async for completion in ...]: [inl] is [break]. *)
Definition litellm_step (tool_mode : bool) (tool_index : option Z)
    (completion : model_response) : result (unit + (event * option Z)) :=
  match choices completion with
  | [] => Raise IndexError
  | delta_obj :: _ =>
      let sel :=
        if tool_mode then
          match tool_calls delta_obj with
          | Some calls =>
              match calls with
              | [] => Raise IndexError
              | tool_call :: _ => Ok (Some (index tool_call), arguments tool_call)
              end
          | None => Ok (tool_index, None)
          end
        else Ok (tool_index, delta_content delta_obj) in
      '(tool_index, delta_string) ← sel;
      match delta_string with
      | None => Ok (inl tt)
      | Some delta_string => Ok (inr ((JStr delta_string, tool_index), tool_index))
      end
  end.

Fixpoint litellm_loop (tool_mode : bool) (tool_index : option Z)
    (completions : list model_response) (end_of_stream : option exn)
  : stream event :=
  match completions with
  | [] => Stream [] end_of_stream
  | completion :: rest =>
      match litellm_step tool_mode tool_index completion with
      | Raise e => raised e
      | Ok (inl _) => returned
      | Ok (inr (ev, tool_index')) =>
          yield_then [ev] (litellm_loop tool_mode tool_index' rest end_of_stream)
      end
  end.

Definition invoke_litellm {PD : Pydantic} (model_config : ModelConfig)
    (schema : option JsonSchemaObject)
    (completions : list model_response) (end_of_stream : option exn)
  : stream event :=
  let tool_mode :=
    match schema with
    | Some _ => use_tool_calling model_config
    | None => false
    end in
  litellm_loop tool_mode None completions end_of_stream.

(** ** llm.py: [Prompt.invoke_llm], the choice of the adapter *)

Inductive adapter : Type := Anthropic | Ollama | LiteLLM.

Definition select_adapter (model_config : ModelConfig) (schema_given : bool)
  : adapter :=
  if startswith "claude" (model model_config) && negb schema_given then Anthropic
  else if startswith "ollama/" (model model_config) && negb schema_given then Ollama
  else LiteLLM.

(** ** llm.py: [Prompt.iterate_invoke_llm] *)

(** [tool_responses = defaultdict(str)], keyed by tool index, in insertion
    order. *)
Abbreviation tool_buffers := (list (Z * string)).

Fixpoint buffer_get (d : tool_buffers) (k : Z) : string :=
  match d with
  | [] => ""
  | (k', v) :: d' => if k' =? k then v else buffer_get d' k
  end.

(** [tool_responses[k] += s] *)
Fixpoint buffer_append (d : tool_buffers) (k : Z) (s : string) : tool_buffers :=
  match d with
  | [] => [(k, "" +:+ s)]
  | (k', v) :: d' =>
      if k' =? k then (k', v +:+ s) :: d' else (k', v) :: buffer_append d' k s
  end.

(** The triple [(output, tool_responses, partial_data)] at a [yield]. *)
Record snapshot : Type := {
  output : string;
  tool_responses : tool_buffers;
  partial_data : dict;
}.

Definition fresh_state : snapshot :=
  {| output := ""; tool_responses := []; partial_data := [] |}.

(** One iteration of the [async for] of [iterate_invoke_llm].  The first
    component is [tool_responses] after the iteration, also when it raises:
    the dictionary is shared with the consumer and updated in place.  A
    delta that is not a [str] makes [output += partial_output] raise
    [TypeError] before anything is updated. *)
Definition iterate_step {RT : PyRuntime} (st : snapshot) (ev : event)
  : tool_buffers * result snapshot :=
  let '(partial_output, tool_index) := ev in
  match partial_output with
  | JStr partial_text =>
      let output := output st +:+ partial_text in
      match tool_index with
      | None =>
          (tool_responses st,
           Ok {| output := output; tool_responses := tool_responses st;
                 partial_data := partial_data st |})
      | Some tool_index =>
          let tool_responses :=
            buffer_append (tool_responses st) tool_index partial_text in
          let merged :=
            match json_loads (buffer_get tool_responses tool_index) with
            | Ok loaded_output => dict_ior (partial_data st) loaded_output
            | Raise JSONDecodeError => Ok (partial_data st)      (* pass *)
            | Raise e => Raise e
            end in
          (tool_responses,
           partial_data ← merged;
           Ok {| output := output; tool_responses := tool_responses;
                 partial_data := partial_data |})
      end
  | _ =>
      (* [output += partial_output]: a [str] takes only a [str] *)
      (tool_responses st, Raise TypeError)
  end.

(** What a run of the generator leaves behind: the snapshots yielded, how it
    ended, and the final contents of its [tool_responses] dictionary. *)
Record iteration : Type := {
  yielded : stream snapshot;
  final_tool_responses : tool_buffers;
}.

Fixpoint iterate_loop {RT : PyRuntime} (st : snapshot) (events : list event)
    (end_of_events : option exn) : iteration :=
  match events with
  | [] => {| yielded := Stream [] end_of_events;
             final_tool_responses := tool_responses st |}
  | ev :: rest =>
      match iterate_step st ev with
      | (tr, Raise e) => {| yielded := raised e; final_tool_responses := tr |}
      | (_, Ok st') =>
          let r := iterate_loop st' rest end_of_events in
          {| yielded := yield_then [st'] (yielded r);
             final_tool_responses := final_tool_responses r |}
      end
  end.

Definition iterate_invoke_llm {RT : PyRuntime} (llm : stream event) : iteration :=
  iterate_loop fresh_state (items llm) (ending llm).

(** ** llm.py: [Prompt.parse_structured_response] *)

Definition construct_model_from_schema {PD : Pydantic} (schema : OutputSchema)
  : option PydanticModel :=
  match make_schema_object schema with
  | None => None
  | Some schema_object => Some (jsonschema_to_pydantic schema_object)
  end.

(** [for tool_response in tool_responses.values(): data |= json.loads(tool_response)] *)
Fixpoint merge_tool_responses {RT : PyRuntime} (data : dict) (values : list string)
  : result dict :=
  match values with
  | [] => Ok data
  | tool_response :: rest =>
      loaded ← json_loads tool_response;
      data' ← dict_ior data loaded;
      merge_tool_responses data' rest
  end.

(** Python's [None] is [JNull]: the function returns [None] on every
    handled failure, and otherwise the decoded [data]. *)
Definition parse_structured_response {RT : PyRuntime} {PD : Pydantic}
    (tool_responses : tool_buffers) (output : string) (schema : OutputSchema)
  : result json :=
  let decoded : result (option json) :=
    match tool_responses with
    | _ :: _ =>
        match merge_tool_responses [] (map snd tool_responses) with
        | Ok data => Ok (Some (JObj data))
        | Raise JSONDecodeError => Ok None
        | Raise e => Raise e
        end
    | [] =>
        match json_loads output with
        | Ok data => Ok (Some data)
        | Raise JSONDecodeError => Ok None
        | Raise e => Raise e
        end
    end in
  decoded ← decoded;
  match decoded with
  | None => Ok JNull
  | Some data =>
      match construct_model_from_schema schema with
      | None => Ok JNull
      | Some model => if model_validate model data then Ok data else Ok JNull
      end
  end.

(** ** llm.py: [Prompt.run] *)

Record Outputs : Type := {
  result_ : string;
  response : string;
  data : json;            (* [JNull] is [None] *)
}.

(** [inputs.model] is taken after its resolution against the default. *)
Record Inputs {PD : Pydantic} : Type := {
  resolved_model : ModelConfig;
  quote_style : option QuoteStyle;
  prompt_ : prompt;
  output_schema : option OutputSchema;
}.

(** [retry=tenacity.retry_if_exception_type(retry_errors)], where
    [retry_errors] holds [aiohttp.ClientError], [openai.OpenAIError] and
    [anthropic.AnthropicError].  litellm's [NotFoundError] derives from
    [openai.OpenAIError]; the other classes told apart in [exn] are
    builtins, outside [retry_errors]. *)
Definition is_retry_error (e : exn) : bool :=
  match e with
  | TransientError | NotFoundError => true
  | _ => false
  end.

(** [partial_data or None] *)
Definition or_None (partial_data : dict) : json :=
  match partial_data with
  | [] => JNull
  | _ :: _ => JObj partial_data
  end.

Definition emit (s : snapshot) : Outputs :=
  {| result_ := output s; response := output s; data := or_None (partial_data s) |}.

(** The variables [output] and [tool_responses] of [run]. *)
Record run_vars : Type := {
  run_output : string;
  run_tool_responses : tool_buffers;
}.

Definition run_vars_init : run_vars :=
  {| run_output := ""; run_tool_responses := [] |}.

(** The loop variables after one attempt: rebound at every [yield] of the
    attempt, left alone when the attempt yields nothing. *)
Definition after_attempt (vars : run_vars) (it : iteration) : run_vars :=
  match last (items (yielded it)) with
  | None => vars
  | Some s => {| run_output := output s;
                 run_tool_responses := final_tool_responses it |}
  end.

Inductive retry_end : Type :=
| Succeeded
| Failed (e : exn)
| StillRetrying.

(** [async for attempt in tenacity.AsyncRetrying(...)]: [attempts] lists what
    [invoke_llm] does on the successive attempts.  There is no bound on
    the number of attempts: when the list is used up the loop is still
    retrying.  The result is what was yielded, the loop variables at the
    end, and the way the loop ended. *)
Fixpoint retrying {RT : PyRuntime} (vars : run_vars) (attempts : list (stream event))
  : list Outputs * run_vars * retry_end :=
  match attempts with
  | [] => ([], vars, StillRetrying)
  | llm :: later =>
      let it := iterate_invoke_llm llm in
      let outs := map emit (items (yielded it)) in
      let vars' := after_attempt vars it in
      match ending (yielded it) with
      | None => (outs, vars', Succeeded)
      | Some e =>
          if is_retry_error e then
            let '(outs', vars'', r) := retrying vars' later in
            (outs ++ outs', vars'', r)
          else (outs, vars', Failed e)
      end
  end.

(** The provider as [run] sees it: for the assembled messages, the model and
    the schema, the behaviour of [invoke_llm] on each attempt in turn. *)
Definition provider {PD : Pydantic} : Type :=
  list message -> ModelConfig -> option JsonSchemaObject -> list (stream event).

Inductive run_end : Type :=
| Completed
| Raised (e : exn)
| Retrying.

(** A run of [run]: the outputs yielded, the way it ended, and the variables
    [output] and [tool_responses] when it ended. *)
Record run_result : Type := {
  emitted : list Outputs;
  run_ending : run_end;
  final_vars : run_vars;
}.

(** [JsonSchemaObject(type="object", properties=inputs.output_schema)] *)
Definition resolve_schema {PD : Pydantic} (output_schema : option OutputSchema)
  : result (option JsonSchemaObject) :=
  match output_schema with
  | None => Ok None
  | Some s =>
      match make_schema_object s with
      | Some o => Ok (Some o)
      | None => Raise (ValueError "JsonSchemaObject")
      end
  end.

(** The cost estimate only feeds the log; [NotFoundError] is handled, any
    other exception of [litellm.completion_cost] leaves [run]. *)
Definition estimate_cost_handled {LL : Litellm} (model_config : ModelConfig)
    (messages : list message) (completion : string) : result unit :=
  match completion_cost (model model_config) messages completion with
  | Ok _ => Ok tt
  | Raise NotFoundError => Ok tt
  | Raise e => Raise e
  end.

(** Lines 675-706: after the retry loop. *)
Definition finish {RT : PyRuntime} {PD : Pydantic} {LL : Litellm} (inputs : Inputs)
    (messages : list message) (outs : list Outputs) (vars : run_vars)
  : run_result :=
  let stop e := {| emitted := outs; run_ending := Raised e; final_vars := vars |} in
  match estimate_cost_handled (resolved_model inputs) messages (run_output vars) with
  | Raise e => stop e
  | Ok _ =>
      match output_schema inputs with
      | None => {| emitted := outs; run_ending := Completed; final_vars := vars |}
      | Some s =>
          match parse_structured_response
                  (run_tool_responses vars) (run_output vars) s with
          | Raise e => stop e
          | Ok JNull =>
              stop (RuntimeError
                      "Data returned by LLM does not adhere to output schema")
          | Ok data =>
              {| emitted := outs ++
                   [ {| result_ := run_output vars;
                        response := run_output vars;
                        data := data |} ];
                 run_ending := Completed;
                 final_vars := vars |}
          end
      end
  end.

Definition run {RT : PyRuntime} {PD : Pydantic} {LL : Litellm} (llm : provider) (inputs : Inputs)
  : run_result :=
  let abort e :=
    {| emitted := []; run_ending := Raised e; final_vars := run_vars_init |} in
  match build_messages (prompt_ inputs) (resolved_model inputs) (quote_style inputs) with
  | Raise e => abort e
  | Ok messages =>
      match resolve_schema (output_schema inputs) with
      | Raise e => abort e
      | Ok schema =>
          let '(outs, vars, r) :=
            retrying run_vars_init (llm messages (resolved_model inputs) schema) in
          match r with
          | StillRetrying =>
              {| emitted := outs; run_ending := Retrying; final_vars := vars |}
          | Failed e =>
              {| emitted := outs; run_ending := Raised e; final_vars := vars |}
          | Succeeded => finish inputs messages outs vars
          end
      end
  end.

(** ** llm.py: [PromptEnvContext] *)

(** [os.environ] *)
Abbreviation environ := (gmap string string).

(** Secrets, base64 and temporary files, as [enter] uses them:
    [b64decode_ascii s] is [base64.b64decode(s).decode("ascii")], [None] when
    either step raises; [temp_file_name] is the name the system gives the
    next [NamedTemporaryFile]. *)
Class Host : Type := {
  get_secret : string -> option string;
  b64decode_ascii : string -> option string;
  temp_file_name : string;
}.

Record temp_file : Type := {
  file_name : string;
  file_contents : string;
  closed : bool;
}.

Record PromptEnvContext : Type := {
  anthropic_env_var_bak : option string;
  gcp_env_var_bak : option string;
  file : option temp_file;
}.

(** [__init__] *)
Definition PromptEnvContext_init : PromptEnvContext :=
  {| anthropic_env_var_bak := None; gcp_env_var_bak := None; file := None |}.

(** [enter]: the context and the environment afterwards, and the exception
    raised, if any; what was assigned before the exception stays assigned. *)
Definition enter {HO : Host} (self : PromptEnvContext) (env : environ)
  : PromptEnvContext * environ * option exn :=
  let '(self, env) :=
    match get_secret "ANTHROPIC_API_KEY" with
    | Some anthropic_api_key =>
        ({| anthropic_env_var_bak := env !! "ANTHROPIC_API_KEY";
            gcp_env_var_bak := gcp_env_var_bak self;
            file := file self |},
         <["ANTHROPIC_API_KEY" := anthropic_api_key]> env)
    | None => (self, env)
    end in
  match get_secret "GCP_CREDENTIALS_64" with
  | Some base64_encoded_credentials =>
      match b64decode_ascii base64_encoded_credentials with
      | None => (self, env, Some Base64Error)
      | Some credentials_string =>
          let f := {| file_name := temp_file_name;
                      file_contents := credentials_string;
                      closed := false |} in
          ({| anthropic_env_var_bak := anthropic_env_var_bak self;
              gcp_env_var_bak := env !! "GOOGLE_APPLICATION_CREDENTIALS";
              file := Some f |},
           <["GOOGLE_APPLICATION_CREDENTIALS" := file_name f]> env,
           None)
      end
  | None => (self, env, None)
  end.

(** The branches of [exit] for one variable: [os.environ[name] = bak] when
    a backup is held; without one, [del os.environ[name]] when the variable
    is set. *)
Definition restore_var (name : string) (bak : option string) (env : environ)
  : environ :=
  match bak with
  | Some v => <[name := v]> env
  | None => if bool_decide (is_Some (env !! name)) then delete name env else env
  end.

(** [exit] *)
Definition exit (self : PromptEnvContext) (env : environ)
  : PromptEnvContext * environ :=
  let self' :=
    {| anthropic_env_var_bak := anthropic_env_var_bak self;
       gcp_env_var_bak := gcp_env_var_bak self;
       file := match file self with
               | Some f => Some {| file_name := file_name f;
                                   file_contents := file_contents f;
                                   closed := true |}
               | None => None
               end |} in
  (self',
   restore_var "GOOGLE_APPLICATION_CREDENTIALS" (gcp_env_var_bak self)
     (restore_var "ANTHROPIC_API_KEY" (anthropic_env_var_bak self) env)).

(** [with prompt_env_context_singleton: body], for a use that is not nested
    in another one and a body that only reads the environment: [enter], the
    body, then [exit] on every way out of the body.  When [enter] itself
    raises, the body and [exit] do not run. *)
Definition with_context {HO : Host} (self : PromptEnvContext) (env : environ)
  : PromptEnvContext * environ * option exn :=
  match enter self env with
  | (self', env', Some e) => (self', env', Some e)
  | (self', env', None) => let '(self'', env'') := exit self' env' in (self'', env'', None)
  end.

(** ** llm.py: [Prompt._invoke_anthropic], the split of the messages *)

#[global] Instance Role_eq_dec : EqDecision Role.
Proof. solve_decision. Defined.

#[global] Instance message_eq_dec : EqDecision message.
Proof. solve_decision. Defined.

(** [[message for message in messages if message["role"] == "system"]] *)
Definition system_messages (messages : list message) : list message :=
  filter (fun message => msg_role message = system) messages.

Definition system_prompt (messages : list message) : string :=
  join (nl +:+ nl) (map content (system_messages messages)).

Definition compatible_messages (messages : list message) : list message :=
  filter (fun message => msg_role message = user \/ msg_role message = assistant)
    messages.

(** The [MessageParam]s sent as the conversation: role and content of the
    compatible messages, filtered once more on the role. *)
Definition anthropic_messages (messages : list message) : list message :=
  map (fun message => Message (msg_role message) (content message))
    (filter (fun message => msg_role message = user \/ msg_role message = assistant)
       (compatible_messages messages)).

(** The messages reported by the warning as left out of the prompt. *)
Definition outstanding_messages (messages : list message) : list message :=
  filter (fun message => (message ∉ system_messages messages)
                         /\ (message ∉ compatible_messages messages))
    messages.

(** [async for completion in stream.text_stream: yield completion, None] *)
Definition invoke_anthropic (text_stream : stream string) : stream event :=
  Stream (map (fun completion => (JStr completion, None)) (items text_stream))
         (ending text_stream).

(** ** llm.py: [Prompt._invoke_ollama], the target of the request *)

(** [s.removeprefix(p)] *)
Fixpoint drop_prefix (p s : string) : option string :=
  match p, s with
  | EmptyString, _ => Some s
  | String a p', String b s' => if Ascii.eqb a b then drop_prefix p' s' else None
  | String _ _, EmptyString => None
  end.

Definition removeprefix (p s : string) : string :=
  match drop_prefix p s with
  | Some rest => rest
  | None => s
  end.

(** [a or b] for an optional string [a]: [None] and the empty string are
    both false. *)
Definition or_else (a : option string) (b : string) : string :=
  match a with
  | Some s => if str_truthy s then s else b
  | None => b
  end.

(** [model_config.api_base or get_secret("OLLAMA_API_BASE") or "http://localhost:11434"] *)
Definition ollama_api_base {HO : Host} (model_config : ModelConfig) : string :=
  or_else (api_base model_config)
    (or_else (get_secret "OLLAMA_API_BASE") "http://localhost:11434").

Definition ollama_api_url {HO : Host} (model_config : ModelConfig) : string :=
  ollama_api_base model_config +:+ "/api/chat".

Definition ollama_model_name (model_config : ModelConfig) : string :=
  removeprefix "ollama/" (model model_config).

(** The [headers] dictionary of [_invoke_ollama] and [_invoke_litellm]. *)
Definition auth_headers (model_config : ModelConfig) : list (string * string) :=
  match auth_token model_config with
  | Some token => [("Authorization", "Bearer " +:+ token)]
  | None => []
  end.

(** ** A reference JSON decoder

    [JsonRef.loads] decodes the JSON texts built from objects, arrays,
    strings with the two-character escapes, integers and the three
    literals, the way [json.loads] does (last duplicate key wins).  Numbers
    with a fraction or an exponent and [\u] escapes are not covered: it
    reports them as undecodable.  It serves to run the definitions on
    concrete texts of that fragment. *)

Module JsonRef.

Definition is_ws (c : ascii) : bool :=
  let n := N_of_ascii c in
  ((n =? 32) || (n =? 9) || (n =? 10) || (n =? 13))%N.

Fixpoint skip_ws (s : string) : string :=
  match s with
  | String c r => if is_ws c then skip_ws r else s
  | EmptyString => s
  end.

Definition unescape (c : ascii) : option ascii :=
  match c with
  | "034"%char => Some "034"%char      (* the double quote *)
  | "\"%char => Some "\"%char
  | "/"%char => Some "/"%char
  | "b"%char => Some "008"%char
  | "f"%char => Some "012"%char
  | "n"%char => Some "010"%char
  | "r"%char => Some "013"%char
  | "t"%char => Some "009"%char
  | _ => None
  end.

(** After the opening quote: the text up to the closing quote, and what
    follows it. *)
Fixpoint string_body (s : string) : option (string * string) :=
  match s with
  | EmptyString => None
  | String c r =>
      if Ascii.eqb c "034" then Some (EmptyString, r)
      else if Ascii.eqb c "\" then
        match r with
        | String e r' =>
            match unescape e, string_body r' with
            | Some u, Some (body, rest) => Some (String u body, rest)
            | _, _ => None
            end
        | EmptyString => None
        end
      else if (N_of_ascii c <? 32)%N then None
      else match string_body r with
           | Some (body, rest) => Some (String c body, rest)
           | None => None
           end
  end.

Definition digit (c : ascii) : option Z :=
  let n := N_of_ascii c in
  if ((48 <=? n) && (n <=? 57))%N then Some (Z.of_N n - 48) else None.

(** The digits at the head of [s], read after [acc], and what follows. *)
Fixpoint digits (acc : Z) (s : string) : Z * string :=
  match s with
  | String c r =>
      match digit c with
      | Some d => digits (10 * acc + d) r
      | None => (acc, s)
      end
  | EmptyString => (acc, s)
  end.

Definition ends_number (s : string) : bool :=
  match s with
  | String c _ =>
      negb (Ascii.eqb c "." || Ascii.eqb c "e" || Ascii.eqb c "E")
  | EmptyString => true
  end.

(** An integer without sign: no leading zero, no fraction, no exponent. *)
Definition natural (s : string) : option (Z * string) :=
  match s with
  | String c r =>
      match digit c with
      | Some 0 =>
          let more_digits :=
            match r with
            | String c' _ => match digit c' with Some _ => true | None => false end
            | EmptyString => false
            end in
          if ends_number r && negb more_digits then Some (0, r) else None
      | Some d => let '(n, rest) := digits d r in
                  if ends_number rest then Some (n, rest) else None
      | None => None
      end
  | EmptyString => None
  end.

Definition strip_prefix (p s : string) : option string :=
  if startswith p s then Some (String.substring (String.length p)
                                 (String.length s - String.length p) s)
  else None.

Fixpoint value (fuel : nat) (s : string) : option (json * string) :=
  match fuel with
  | O => None
  | S fuel =>
      match skip_ws s with
      | String "{" r =>
          match skip_ws r with
          | String "}" r' => Some (JObj [], r')
          | r' => members fuel [] r'
          end
      | String "[" r =>
          match skip_ws r with
          | String "]" r' => Some (JArr [], r')
          | r' => elements fuel [] r'
          end
      | String "034" r =>
          match string_body r with
          | Some (body, rest) => Some (JStr body, rest)
          | None => None
          end
      | String "-" r =>
          match natural r with
          | Some (n, rest) => Some (JInt (- n), rest)
          | None => None
          end
      | String _ _ as s' =>
          match natural s' with
          | Some (n, rest) => Some (JInt n, rest)
          | None =>
              match strip_prefix "true" s', strip_prefix "false" s',
                    strip_prefix "null" s' with
              | Some rest, _, _ => Some (JBool true, rest)
              | _, Some rest, _ => Some (JBool false, rest)
              | _, _, Some rest => Some (JNull, rest)
              | _, _, _ => None
              end
          end
      | EmptyString => None
      end
  end

(** After [{] or [,]: a member, then [,] and more members, or [}]. *)
with members (fuel : nat) (acc : dict) (s : string) : option (json * string) :=
  match fuel with
  | O => None
  | S fuel =>
      match skip_ws s with
      | String "034" r =>
          match string_body r with
          | Some (key, rest) =>
              match skip_ws rest with
              | String ":" rest' =>
                  match value fuel rest' with
                  | Some (v, rest'') =>
                      let acc := dict_set acc key v in
                      match skip_ws rest'' with
                      | String "," more => members fuel acc more
                      | String "}" after => Some (JObj acc, after)
                      | _ => None
                      end
                  | None => None
                  end
              | _ => None
              end
          | None => None
          end
      | _ => None
      end
  end

(** After [[] or [,]: an element, then [,] and more elements, or []]. *)
with elements (fuel : nat) (acc : list json) (s : string)
  : option (json * string) :=
  match fuel with
  | O => None
  | S fuel =>
      match value fuel s with
      | Some (v, rest) =>
          match skip_ws rest with
          | String "," more => elements fuel (acc ++ [v]) more
          | String "]" after => Some (JArr (acc ++ [v]), after)
          | _ => None
          end
      | None => None
      end
  end.

Definition loads (s : string) : result json :=
  match value (S (String.length s)) s with
  | Some (v, rest) =>
      match skip_ws rest with
      | EmptyString => Ok v
      | String _ _ => Raise JSONDecodeError
      end
  | None => Raise JSONDecodeError
  end.

(** [d |= v] for a [v] that is not an object, as far as it stays within
    dictionaries with string keys: scalars are not iterable, a string
    iterates over one-character strings, an empty sequence changes
    nothing.  Arrays with elements are not covered. *)
Definition ior_non_mapping (d : dict) (v : json) : result dict :=
  match v with
  | JStr EmptyString | JArr [] => Ok d
  | JStr _ => Raise (ValueError "dictionary update sequence element")
  | JArr _ => Raise OtherError
  | _ => Raise TypeError
  end.

End JsonRef.

Definition reference_runtime : PyRuntime :=
  {| json_loads := JsonRef.loads; ior_non_mapping := JsonRef.ior_non_mapping |}.

(** Collaborators for running the definitions on concrete inputs: a schema
    layer that accepts every schema and every value, a tokenizer that counts
    one token per message, and no secrets. *)
Definition permissive_pydantic : Pydantic :=
  {| OutputSchema := unit;
     JsonSchemaObject := unit;
     PydanticModel := unit;
     make_schema_object := fun _ => Some tt;
     model_dump := fun _ => JObj [];
     jsonschema_to_pydantic := fun _ => tt;
     model_validate := fun _ _ => true |}.

Definition counting_litellm : Litellm :=
  {| token_counter := fun _ msgs => Z.of_nat (length msgs);
     trim_messages := fun msgs _ _ => Some msgs;
     completion_cost := fun _ _ _ => Raise NotFoundError |}.

Definition no_secrets : Host :=
  {| get_secret := fun _ => None;
     b64decode_ascii := fun s => Some s;
     temp_file_name := "/tmp/tmpcred" |}.

(** ** The properties in the words of the design document *)

(** *** Role segments

    A role marker, or a text block with a role of its own, starts a new
    segment under its role; the first segment runs under [user].  A segment
    holds the texts of its text-bearing elements. *)

Definition starts_segment (pe : PromptElement) : option Role :=
  match pe with
  | Elem (RoleElement r) => Some r
  | Elem (TextElement _ (Some r)) => Some r
  | _ => None
  end.

Definition text_of (quote_style : QuoteStyle) (pe : PromptElement) : list string :=
  match pe with
  | Elem (RoleElement _) => []
  | Elem (TextElement text _) => [text]
  | Elem (ContextElement _ _ as e) =>
      match as_string e quote_style with Ok s => [s] | Raise _ => [] end
  | Str s => [s]
  end.

Fixpoint role_segments (quote_style : QuoteStyle) (r : Role) (cur : list string)
    (els : list PromptElement) : list (Role * list string) :=
  match els with
  | [] => [(r, cur)]
  | pe :: rest =>
      match starts_segment pe with
      | Some r' => (r, cur) :: role_segments quote_style r' (text_of quote_style pe) rest
      | None => role_segments quote_style r (cur ++ text_of quote_style pe) rest
      end
  end.

Definition holds_text (seg : Role * list string) : bool :=
  match seg.2 with [] => false | _ :: _ => true end.

Definition nonempty_segments (quote_style : QuoteStyle) (els : list PromptElement)
  : list (Role * list string) :=
  filter (fun seg => holds_text seg = true) (role_segments quote_style user [] els).

Definition segment_message (seg : Role * list string) : message :=
  Message seg.1 (join (nl +:+ nl) seg.2).

(** An element sequence alternating role markers and role-less text
    blocks. *)
Fixpoint alternating (expect_marker : bool) (els : list PromptElement) : bool :=
  match els with
  | [] => true
  | Elem (RoleElement _) :: rest => expect_marker && alternating false rest
  | Elem (TextElement _ None) :: rest => negb expect_marker && alternating true rest
  | _ :: _ => false
  end.

Definition segment_messages (segs : list (Role * list string)) : list message :=
  map segment_message (filter (fun seg => holds_text seg = true) segs).

(** *** The generic adapter's end of stream

    The payload the loop of [_invoke_litellm] looks at: the arguments of the
    first tool call in tool-calling mode, the text content otherwise. *)

Definition well_formed (tool_mode : bool) (completion : model_response) : bool :=
  match choices completion with
  | [] => false
  | d :: _ =>
      if tool_mode then
        match tool_calls d with Some [] => false | _ => true end
      else true
  end.

Definition selected_payload (tool_mode : bool) (completion : model_response)
  : option string :=
  match choices completion with
  | [] => None
  | d :: _ =>
      if tool_mode then
        match tool_calls d with
        | Some (tc :: _) => arguments tc
        | _ => None
        end
      else delta_content d
  end.

(** The tool index that goes with a payload: the index of the first tool
    call in tool-calling mode, the index carried so far otherwise. *)
Definition selected_slot (tool_mode : bool) (tool_index : option Z)
    (completion : model_response) : option Z :=
  match choices completion with
  | [] => tool_index
  | d :: _ =>
      if tool_mode then
        match tool_calls d with
        | Some (tc :: _) => Some (index tc)
        | _ => tool_index
        end
      else tool_index
  end.

(** The events up to the first completion whose selected payload is
    absent. *)
Fixpoint until_absent (tool_mode : bool) (tool_index : option Z)
    (completions : list model_response) : list event :=
  match completions with
  | [] => []
  | c :: rest =>
      match selected_payload tool_mode c with
      | None => []
      | Some s =>
          let slot := selected_slot tool_mode tool_index c in
          (JStr s, slot) :: until_absent tool_mode slot rest
      end
  end.

Definition all_present (tool_mode : bool) (completions : list model_response)
  : bool :=
  forallb (fun c => match selected_payload tool_mode c with
                    | Some _ => true | None => false end) completions.

(** The rule of the design document: a delta resolves to nothing when both
    its text content and its tool-call payload are absent. *)
Definition resolves_to_nothing (d : delta_obj) : bool :=
  match delta_content d, tool_calls d with
  | None, None => true
  | _, _ => false
  end.

(** *** Concrete inputs *)

Definition config_for (model_id : string) : ModelConfig :=
  {| model := model_id; api_base := None; auth_token := None;
     max_output_tokens := None; max_prompt_tokens := 4096 |}.

Definition text_only_delta : delta_obj :=
  {| delta_content := Some "Calling the function."; tool_calls := None |}.

Definition tool_only_delta : delta_obj :=
  {| delta_content := None;
     tool_calls := Some [ {| index := 0; arguments := Some "{}" |} ] |}.

(** *** Finalization over tool buffers, in the words of the design document

    A buffer that does not decode is skipped and merging continues with the
    others; [None] when no buffer decodes. *)
Fixpoint merge_decodable {RT : PyRuntime} (data : option dict)
    (values : list string) : option dict :=
  match values with
  | [] => data
  | tool_response :: rest =>
      match json_loads tool_response with
      | Ok (JObj o) => merge_decodable (Some (dict_update (default [] data) o)) rest
      | _ => merge_decodable data rest
      end
  end.

(** What [parse_structured_response] returns for a decoded candidate. *)
Definition validated {PD : Pydantic} (schema : OutputSchema) (data : json) : json :=
  match construct_model_from_schema schema with
  | None => JNull
  | Some model => if model_validate model data then data else JNull
  end.

(** Every buffer decodes to the object listed for it. *)
Definition decode_to {RT : PyRuntime} (buffers : tool_buffers) (objs : list dict)
  : Prop :=
  Forall2 (fun b o => json_loads b.2 = Ok (JObj o)) buffers objs.

Definition two_buffers_second_cut : tool_buffers :=
  [ (0, json_text "{'a': 1}"); (1, json_text "{'b': ") ].

Definition two_buffers_colliding : tool_buffers :=
  [ (0, json_text "{'a': 1, 'b': 2}"); (1, json_text "{'b': 3}") ].

(** *** Retrying *)

(** What the retry loop of [run] yields. *)
Definition retry_outputs {RT : PyRuntime} (vars : run_vars)
    (attempts : list (stream event)) : list Outputs :=
  (retrying vars attempts).1.1.

(** The text a delta adds to the output.  Only a [str] adds text: on any
    other delta the accumulator raises before it yields. *)
Definition delta_text (delta : json) : string :=
  match delta with
  | JStr s => s
  | _ => EmptyString
  end.

(** The deltas of an attempt, concatenated. *)
Definition concat_deltas (events : list event) : string :=
  fold_right (fun ev acc => delta_text ev.1 +:+ acc) EmptyString events.

(** An attempt that raises a retry error after its events. *)
Definition fails_transiently {RT : PyRuntime} (llm : stream event) : Prop :=
  exists e, ending (yielded (iterate_invoke_llm llm)) = Some e
            /\ is_retry_error e = true.

Definition inputs_with (schema : option (@OutputSchema permissive_pydantic))
  : Inputs (PD := permissive_pydantic) :=
  {| resolved_model := config_for "claude-3-haiku";
     quote_style := None;
     prompt_ := PromptStr "Answer in JSON.";
     output_schema := schema |}.

(** A provider whose first attempt yields one delta and then fails with a
    retry error, and whose second attempt ends without a delta. *)
Definition fails_then_yields_nothing : provider (PD := permissive_pydantic) :=
  fun _ _ _ =>
    [ Stream [(JStr (json_text "{'a': 1}"), None)] (Some TransientError);
      Stream [] None ].

(** *** Credential injection *)

(** A process whose Google credentials are configured in the environment. *)
Definition env_with_adc : environ :=
  {[ "GOOGLE_APPLICATION_CREDENTIALS" := "/srv/adc.json" ]}.

(** Both secrets configured. *)
Definition both_secrets : Host :=
  {| get_secret := fun name =>
       if String.eqb name "ANTHROPIC_API_KEY" then Some "sk-ant"
       else if String.eqb name "GCP_CREDENTIALS_64" then Some "e30="
       else None;
     b64decode_ascii := fun _ => Some "{}";
     temp_file_name := "/tmp/tmpcred" |}.

(** *** The Ollama wire format *)

(** The value under [message.content] of a decoded line of the expected
    shape. *)
Definition message_content (data : json) : option json :=
  match data with
  | JObj d =>
      match dict_get d "message" with
      | Some (JObj m) => dict_get m "content"
      | _ => None
      end
  | _ => None
  end.

(** Text of 7-bit characters only. *)
Fixpoint all_ascii (s : string) : bool :=
  match s with
  | EmptyString => true
  | String c r => Utf8.byte_in 0 127 c && all_ascii r
  end.

(** The loop over the complete lines of a buffer, with the fuel
    [ollama_body] gives it. *)
Definition drain {RT : PyRuntime} (buffer : string)
  : list event * result string :=
  drain_lines (S (String.length buffer)) buffer.

Definition line_hi : string := json_text "{'message':{'content':'Hi'}}".
Definition line_there : string := json_text "{'message':{'content':' there'}}".

(** The two lines as they travel, each closed by a newline. *)
Definition two_line_payload : string :=
  line_hi +:+ nl +:+ line_there +:+ nl.

(** *** Assembly under a given role *)

(** The loop of [build_messages] started under [role] instead of [user]:
    what the elements after a role marker contribute. *)
Definition assemble_from (role : Role) (quote_style : QuoteStyle)
    (els : list PromptElement) : result (list message) :=
  st ← bm_loop quote_style
         {| messages := []; current_role := role; current_message_elements := [] |}
         els;
  Ok (flush st).

Definition is_marker (pe : PromptElement) : bool :=
  match pe with
  | Elem (RoleElement _) => true
  | _ => false
  end.

(** An element that neither is a role marker nor carries a role. *)
Definition role_free (pe : PromptElement) : bool :=
  match starts_segment pe with
  | None => true
  | Some _ => false
  end.

(** *** Chunks of a body *)

(** The body the chunks make up. *)
Definition concat_chunks (chunks : list string) : string :=
  fold_right String.append EmptyString chunks.

(** A byte that cannot end a UTF-8 text: the first byte of a multi-byte
    sequence, or a byte UTF-8 never uses. *)
Definition opens_sequence (c : ascii) : bool := (192 <=? N_of_ascii c)%N.

(** The number of bytes of the sequence such a first byte announces. *)
Definition announced (c : ascii) : nat :=
  if (N_of_ascii c <? 224)%N then 2
  else if (N_of_ascii c <? 240)%N then 3
  else 4.

Fixpoint all_cont (s : string) : bool :=
  match s with
  | EmptyString => true
  | String c r => Utf8.cont c && all_cont r
  end.

(** [s] is the beginning of a multi-byte character without its end: a first
    byte and continuation bytes, fewer bytes in all than the first byte
    announces. *)
Definition truncated (s : string) : bool :=
  match s with
  | EmptyString => false
  | String c r =>
      opens_sequence c && all_cont r
      && (String.length (String c r) <? announced c)%nat
  end.

(** The text ends inside a multi-byte character: one of its suffixes is
    such a beginning. *)
Fixpoint ends_open (s : string) : bool :=
  match s with
  | EmptyString => false
  | String c r => truncated (String c r) || ends_open r
  end.

(** The line [{"message":{"content":"€"}}] in UTF-8 (the sign is the three
    bytes 226, 130, 172), cut after the second byte of the sign. *)
Definition euro_head : string :=
  json_text "{'message':{'content':'"
  +:+ String "226" (String "130" EmptyString).
Definition euro_tail : string :=
  String "172" (json_text "'}}") +:+ nl.

(** *** Accumulation of plain text *)

(** The texts after each event: every delta appended to what came before. *)
Fixpoint running_texts (acc : string) (events : list event) : list string :=
  match events with
  | [] => []
  | ev :: rest =>
      (acc +:+ delta_text ev.1) :: running_texts (acc +:+ delta_text ev.1) rest
  end.

(** The delta of the event is a [str]. *)
Definition is_text (ev : event) : bool :=
  match ev.1 with
  | JStr _ => true
  | _ => false
  end.

Definition text_snapshot (text : string) : snapshot :=
  {| output := text; tool_responses := []; partial_data := [] |}.

(** The deltas of the events of slot [k]. *)
Definition slot_events (k : Z) (events : list event) : list event :=
  filter (fun ev => ev.2 = Some k) events.

(** *** Attempts of the retry loop *)

(** What [run] yields during one attempt. *)
Definition attempt_emissions {RT : PyRuntime} (llm : stream event) : list Outputs :=
  map emit (items (yielded (iterate_invoke_llm llm))).

(** How the retry loop ends on an attempt that does not fail with a retry
    error. *)
Definition settled_end {RT : PyRuntime} (llm : stream event) : retry_end :=
  match ending (yielded (iterate_invoke_llm llm)) with
  | None => Succeeded
  | Some e => Failed e
  end.

Definition settles {RT : PyRuntime} (llm : stream event) : Prop :=
  match ending (yielded (iterate_invoke_llm llm)) with
  | None => True
  | Some e => is_retry_error e = false
  end.

(** *** Runs to the end *)

(** A provider whose only attempt yields the text of an object and
    succeeds. *)
Definition answers_once : provider (PD := permissive_pydantic) :=
  fun _ _ _ => [ Stream [(JStr (json_text "{'a': 1}"), None)] None ].

(** A pricing table whose lookup fails with something else than
    [NotFoundError]. *)
Definition broken_pricing : Litellm :=
  {| token_counter := fun _ msgs => Z.of_nat (length msgs);
     trim_messages := fun msgs _ _ => Some msgs;
     completion_cost := fun _ _ _ => Raise OtherError |}.

(** *** Credentials that do not decode *)

(** Both secrets configured, the second one not valid base64. *)
Definition undecodable_credentials : Host :=
  {| get_secret := fun name =>
       if String.eqb name "ANTHROPIC_API_KEY" then Some "sk-ant"
       else if String.eqb name "GCP_CREDENTIALS_64" then Some "%%%"
       else None;
     b64decode_ascii := fun _ => None;
     temp_file_name := "/tmp/tmpcred" |}.

(** A process environment with an API key of its own and a search path. *)
Definition env_with_key : environ :=
  {[ "ANTHROPIC_API_KEY" := "sk-own"; "PATH" := "/usr/bin" ]}.

(** *** A line with a content that is not a string *)

(** The line [{"message":{"content":5}}]: of the expected shape, with a
    number under [content]. *)
Definition line_number : string := json_text "{'message':{'content':5}}".

(** A response whose body is that line between the two lines of text, in one
    chunk. *)
Definition body_with_number : http_response :=
  {| status := 200;
     body_chunks := [line_hi +:+ nl +:+ line_number +:+ nl +:+ line_there +:+ nl];
     body_end := None |}.

(** The native Ollama adapter as the one attempt of a provider. *)
Definition ollama_provider (response : http_response)
  : provider (PD := permissive_pydantic) :=
  fun _ _ _ => [invoke_ollama (RT := reference_runtime) response].

Definition ollama_inputs : Inputs (PD := permissive_pydantic) :=
  {| resolved_model := config_for "ollama/llama3";
     quote_style := None;
     prompt_ := PromptStr "Say hi.";
     output_schema := None |}.

(** * Properties *)

(** ** Strings *)

Lemma append_nil_l (s : string) : EmptyString +:+ s = s.
Proof. reflexivity. Qed.

Lemma append_cons (c : ascii) (a b : string) :
  String c a +:+ b = String c (a +:+ b).
Proof. reflexivity. Qed.

Lemma append_empty_r (s : string) : s +:+ EmptyString = s.
Proof. induction s as [|c s IH]; [done | by rewrite append_cons, IH]. Qed.

Lemma append_assoc (a b c : string) : (a +:+ b) +:+ c = a +:+ (b +:+ c).
Proof.
  induction a as [|x a IH]; [done | by rewrite !append_cons, IH].
Qed.

Lemma append_eq_empty (a b : string) :
  a +:+ b = EmptyString -> a = EmptyString /\ b = EmptyString.
Proof. destruct a; [done | rewrite append_cons; discriminate]. Qed.

Lemma startswith_spec (p s : string) :
  startswith p s = true <-> exists post, s = p +:+ post.
Proof.
  revert s; induction p as [|a p IH]; intros s; simpl.
  - split; [eauto | done].
  - destruct s as [|b s].
    + split; [done | intros [post Hpost]; discriminate].
    + setoid_rewrite append_cons.
      destruct (Ascii.eqb_spec a b) as [->|Hne].
      * rewrite IH. split; intros [post Hpost]; exists post; congruence.
      * split; [done | intros [post Hpost]; congruence].
Qed.

Lemma str_in_spec (p s : string) :
  str_in p s = true <-> exists pre post, s = pre +:+ p +:+ post.
Proof.
  induction s as [|c s IH].
  - simpl. rewrite orb_false_r, startswith_spec. split.
    + intros [post ->]. by exists EmptyString, post.
    + intros (pre & post & Heq). symmetry in Heq.
      apply append_eq_empty in Heq as [-> Heq]. eauto.
  - change (str_in p (String c s))
      with (startswith p (String c s) || str_in p s).
    rewrite orb_true_iff, startswith_spec, IH. split.
    + intros [[post ->] | (pre & post & ->)].
      * by exists EmptyString, post.
      * by exists (String c pre), post.
    + intros ([|c' pre] & post & Heq).
      * left; eauto.
      * right. rewrite append_cons in Heq. injection Heq as -> ->. eauto.
Qed.

Lemma join_nonempty (sep : string) (l : list string) :
  Forall (fun s => s <> EmptyString) l -> l <> [] -> join sep l <> EmptyString.
Proof.
  intros Hall Hne. destruct l as [|x [|y l]]; [done | |].
  - simpl. by inversion Hall.
  - inversion Hall as [|? ? Hx _]; subst.
    change (x +:+ sep +:+ join sep (y :: l) <> EmptyString).
    intros [-> _]%append_eq_empty. done.
Qed.

(** ** Message assembly *)

Lemma bm_step_total (q : QuoteStyle) (st : bm_state) (pe : PromptElement) :
  exists st', bm_step q st pe = Ok st'.
Proof.
  destruct pe as [[r | text [r|] | value heading] | s], q; simpl; eauto.
Qed.

Lemma bm_loop_total (q : QuoteStyle) (els : list PromptElement) :
  forall st, exists st', bm_loop q st els = Ok st'.
Proof.
  induction els as [|pe els IH]; intros st; simpl; [eauto|].
  destruct (bm_step_total q st pe) as [st1 ->]. simpl. apply IH.
Qed.

Lemma assemble_total (p : prompt) (q : QuoteStyle) :
  exists msgs, assemble p q = Ok msgs.
Proof.
  destruct p as [s | els]; simpl; [eauto|].
  destruct (bm_loop_total q els bm_init) as [st ->]. simpl. eauto.
Qed.

Lemma segment_messages_cons (r : Role) (cur : list string)
    (segs : list (Role * list string)) :
  segment_messages ((r, cur) :: segs) =
    match cur with
    | [] => segment_messages segs
    | _ :: _ => segment_message (r, cur) :: segment_messages segs
    end.
Proof. by destruct cur. Qed.

Lemma flush_segment (st : bm_state) :
  flush st =
    messages st ++
    segment_messages [(current_role st, current_message_elements st)].
Proof.
  unfold flush. rewrite segment_messages_cons.
  destruct (current_message_elements st); [by rewrite app_nil_r | done].
Qed.

(** The messages deposited so far, followed by one message per segment that
    holds text: the invariant of the loop of [build_messages]. *)
Lemma bm_loop_segments (q : QuoteStyle) (els : list PromptElement) :
  forall st st',
    bm_loop q st els = Ok st' ->
    flush st' =
      messages st ++
      segment_messages
        (role_segments q (current_role st) (current_message_elements st) els).
Proof.
  induction els as [|pe els IH]; intros st st' Hloop; simpl in Hloop.
  - injection Hloop as <-. apply flush_segment.
  - destruct (bm_step_total q st pe) as [st1 Hstep].
    rewrite Hstep in Hloop. simpl in Hloop.
    rewrite (IH _ _ Hloop). clear IH Hloop.
    assert (Hsplit : forall r texts,
      flush st ++ segment_messages (role_segments q r texts els) =
      messages st ++
        segment_messages ((current_role st, current_message_elements st)
                            :: role_segments q r texts els)).
    { intros r texts. rewrite flush_segment, !segment_messages_cons.
      destruct (current_message_elements st); simpl;
        by rewrite <- ?app_assoc, ?app_nil_r. }
    destruct pe as [[r | text [r|] | value heading] | s]; simpl in Hstep;
      try destruct q; simpl in Hstep; injection Hstep as <-; simpl;
      solve [ apply Hsplit | done ].
Qed.

Lemma assemble_list_segments (q : QuoteStyle) (els : list PromptElement) :
  assemble (PromptList els) q = Ok (map segment_message (nonempty_segments q els)).
Proof.
  simpl. destruct (bm_loop_total q els bm_init) as [st Hst].
  rewrite Hst. simpl. by rewrite (bm_loop_segments _ _ _ _ Hst).
Qed.

(** Every text a segment holds is the text of one of the elements. *)
Lemma role_segments_texts (q : QuoteStyle) (P : string -> Prop)
    (els : list PromptElement) :
  Forall (fun pe => Forall P (text_of q pe)) els ->
  forall r cur, Forall P cur ->
    Forall (fun seg => Forall P seg.2) (role_segments q r cur els).
Proof.
  induction 1 as [|pe els Hpe Hels IH]; intros r cur Hcur; simpl.
  - by constructor.
  - destruct (starts_segment pe).
    + constructor; [done | by apply IH].
    + apply IH. by apply Forall_app.
Qed.

Section Assembly.
Context {LL : Litellm}.

(** C8. A prompt given as a bare string assembles to exactly one message,
    of role [user], whose content is the string itself; and as long as
    the token count stays within the budget (no trimming applies),
    [build_messages] returns that one message. *)
Theorem build_messages_bare_string (s : string) (model_config : ModelConfig)
    (quote_style : option QuoteStyle) :
  assemble (PromptStr s) (resolve_quote_style model_config quote_style)
    = Ok [Message user s]
  /\ (token_counter (model model_config) [Message user s]
        <= max_prompt_tokens model_config ->
      build_messages (PromptStr s) model_config quote_style
        = Ok [Message user s]).
Proof.
  split; [done|]. intros Hbudget. unfold build_messages. simpl.
  destruct (Z.gtb_spec (token_counter (model model_config) [Message user s])
              (max_prompt_tokens model_config)); [lia | done].
Qed.

(** C9. Rendering a role marker raises [RuntimeError]; the loop of
    [build_messages] consumes a role marker by depositing the pending
    message, without rendering it; so the assembly of any prompt returns a
    message list, and [build_messages] either returns a message list or
    raises the [ValueError] of a failed trim. *)
Theorem role_marker_never_rendered :
  (forall role quote_style,
      as_string (RoleElement role) quote_style
        = Raise (RuntimeError "RoleElement cannot be converted to a string."))
  /\ (forall quote_style st role,
      bm_step quote_style st (Elem (RoleElement role))
        = Ok (deposit_messages st role))
  /\ (forall message_config quote_style,
      exists messages, assemble message_config quote_style = Ok messages)
  /\ (forall message_config model_config quote_style,
      (exists messages,
          build_messages message_config model_config quote_style = Ok messages)
      \/ build_messages message_config model_config quote_style
           = Raise (ValueError "Failed to trim messages")).
Proof.
  repeat split; try done.
  - intros p q. apply assemble_total.
  - intros p mc q. unfold build_messages.
    destruct (assemble_total p (resolve_quote_style mc q)) as [msgs ->].
    simpl. destruct (_ >? _); [|by eauto].
    destruct (trim_messages _ _ _); [by eauto | by right].
Qed.

End Assembly.

(** C8 for the prompt [Hello], one token against a budget of 4096. *)
Lemma build_messages_bare_string_witness :
  build_messages (LL := counting_litellm) (PromptStr "Hello")
    (config_for "gpt-4o") None
  = Ok [Message user "Hello"].
Proof.
  refine (proj2 (build_messages_bare_string (LL := counting_litellm)
                   "Hello" (config_for "gpt-4o") None) _).
  vm_compute. discriminate.
Defined.

(** C6, as stated, fails: a role marker followed by a text block with empty
    text alternates markers and text blocks, and assembles to one message
    whose content is empty. *)
Lemma empty_text_block_gives_empty_message :
  alternating true [Elem (RoleElement system); Elem (TextElement EmptyString None)]
    = true
  /\ assemble
       (PromptList [Elem (RoleElement system); Elem (TextElement EmptyString None)])
       XML
     = Ok [Message system EmptyString].
Proof. split; reflexivity. Qed.

(** C6, amended. For every prompt element sequence, the assembled message
    list has one message per role segment that holds at least one
    text-bearing element, in order, each with the segment's role and the
    blank-line join of its texts; and when no element renders to the empty
    string, no assembled message has empty content. *)
Theorem messages_are_nonempty_segments (quote_style : QuoteStyle)
    (els : list PromptElement) :
  exists messages,
    assemble (PromptList els) quote_style = Ok messages
    /\ messages = map segment_message (nonempty_segments quote_style els)
    /\ length messages = length (nonempty_segments quote_style els)
    /\ (Forall (fun pe => Forall (fun s => s <> EmptyString) (text_of quote_style pe)) els ->
        Forall (fun m => content m <> EmptyString) messages).
Proof.
  exists (map segment_message (nonempty_segments quote_style els)).
  split; [apply assemble_list_segments|]. split; [done|].
  split; [by rewrite length_map|].
  intros Hels. apply Forall_map, Forall_forall. intros [r cur] Hin.
  apply list_elem_of_filter in Hin as [Hholds Hin]. simpl.
  apply join_nonempty.
  - pose proof (role_segments_texts quote_style _ els Hels user [] (Forall_nil_2 _)) as Hall.
    rewrite Forall_forall in Hall. apply (Hall _ Hin).
  - unfold holds_text in Hholds. simpl in Hholds. by destruct cur.
Qed.

(** The amended C6 on a system segment and a user segment of two texts. *)
Lemma messages_are_nonempty_segments_witness :
  exists messages,
    assemble
      (PromptList [ Elem (RoleElement system); Str "Be brief.";
                    Elem (RoleElement user); Str "Hello";
                    Elem (ContextElement "Apple" "Fruits") ])
      XML
    = Ok messages
    /\ length messages = 2%nat
    /\ Forall (fun m => content m <> EmptyString) messages.
Proof.
  destruct (messages_are_nonempty_segments XML
              [ Elem (RoleElement system); Str "Be brief.";
                Elem (RoleElement user); Str "Hello";
                Elem (ContextElement "Apple" "Fruits") ])
    as (messages & Hok & _ & Hlen & Hcontent).
  exists messages. split; [exact Hok|]. split; [exact Hlen|].
  apply Hcontent. repeat constructor; discriminate.
Defined.

(** ** The generic adapter *)

Section GenericAdapter.
Context {PD : Pydantic}.

Lemma litellm_step_present (tool_mode : bool) (tool_index : option Z)
    (c : model_response) (s : string) :
  well_formed tool_mode c = true ->
  selected_payload tool_mode c = Some s ->
  litellm_step tool_mode tool_index c =
    Ok (inr ((JStr s, selected_slot tool_mode tool_index c),
             selected_slot tool_mode tool_index c)).
Proof.
  unfold well_formed, selected_payload, selected_slot, litellm_step.
  destruct (choices c) as [|d ds]; [done|].
  destruct tool_mode; simpl.
  - destruct (tool_calls d) as [[|tc tcs]|]; try done.
    simpl. by intros _ ->.
  - by intros _ ->.
Qed.

Lemma litellm_step_absent (tool_mode : bool) (tool_index : option Z)
    (c : model_response) :
  well_formed tool_mode c = true ->
  selected_payload tool_mode c = None ->
  litellm_step tool_mode tool_index c = Ok (inl tt).
Proof.
  unfold well_formed, selected_payload, litellm_step.
  destruct (choices c) as [|d ds]; [done|].
  destruct tool_mode; simpl.
  - destruct (tool_calls d) as [[|tc tcs]|]; try done.
    simpl. by intros _ ->.
  - by intros _ ->.
Qed.

Lemma litellm_loop_until_absent (tool_mode : bool)
    (completions : list model_response) (end_of_stream : option exn) :
  forall tool_index,
    forallb (well_formed tool_mode) completions = true ->
    litellm_loop tool_mode tool_index completions end_of_stream =
      Stream (until_absent tool_mode tool_index completions)
             (if all_present tool_mode completions then end_of_stream else None).
Proof.
  induction completions as [|c cs IH]; intros tool_index Hwf; [done|].
  simpl in Hwf. apply andb_true_iff in Hwf as [Hc Hcs].
  simpl. destruct (selected_payload tool_mode c) as [s|] eqn:Hsel.
  - rewrite (litellm_step_present _ _ _ _ Hc Hsel), (IH _ Hcs). done.
  - by rewrite (litellm_step_absent _ _ _ Hc Hsel).
Qed.

(** C3, amended. For every sequence of well-formed completions, the generic
    adapter yields one event per completion up to the first one whose
    selected payload is absent, and ends there; it ends with the underlying
    stream when no such completion occurs.  The selected payload is the
    argument string of the first tool call when a schema is requested and
    the model identifier does not contain [gpt], and the text content in
    every other case; the other field of the delta plays no part. *)
Theorem litellm_ends_at_absent_payload (model_config : ModelConfig)
    (schema : option JsonSchemaObject) (completions : list model_response)
    (end_of_stream : option exn) :
  let tool_mode := match schema with
                   | Some _ => use_tool_calling model_config
                   | None => false
                   end in
  forallb (well_formed tool_mode) completions = true ->
  invoke_litellm model_config schema completions end_of_stream =
    Stream (until_absent tool_mode None completions)
           (if all_present tool_mode completions then end_of_stream else None).
Proof. intros tool_mode Hwf. by apply litellm_loop_until_absent. Qed.

(** C4, amended. With an output schema requested, the generic adapter uses
    the strict JSON-schema response format if and only if the model
    identifier contains [gpt] anywhere (a prefix [gpt] is one such case);
    every other model gets the single function tool whose parameters are the
    schema, with the tool choice [required].  A schema request always
    selects the generic adapter. *)
Theorem response_format_iff_contains_gpt (model_config : ModelConfig)
    (schema : JsonSchemaObject) :
  (make_schema_kwargs model_config (Some schema)
     = ResponseFormat "json_schema" "function" (model_dump schema) true
   <-> exists pre post, model model_config = pre +:+ "gpt" +:+ post)
  /\ (make_schema_kwargs model_config (Some schema)
        = ToolCalling "required"
            [ {| tool_type := "function"; function_name := "function";
                 function_parameters := model_dump schema |} ]
      <-> ~ exists pre post, model model_config = pre +:+ "gpt" +:+ post)
  /\ (startswith "gpt" (model model_config) = true ->
      make_schema_kwargs model_config (Some schema)
        = ResponseFormat "json_schema" "function" (model_dump schema) true)
  /\ select_adapter model_config true = LiteLLM.
Proof.
  rewrite <- str_in_spec. unfold make_schema_kwargs, use_tool_calling.
  repeat split.
  - by destruct (str_in "gpt" (model model_config)).
  - by intros ->.
  - by destruct (str_in "gpt" (model model_config)).
  - by destruct (str_in "gpt" (model model_config)).
  - intros [post Hpost]%startswith_spec.
    assert (str_in "gpt" (model model_config) = true) as ->; [|done].
    apply str_in_spec. exists EmptyString, post. by rewrite Hpost.
  - unfold select_adapter. by rewrite !andb_false_r.
Qed.

End GenericAdapter.

(** The amended C3 at a concrete stream: two tool-call fragments, then a
    delta without tool call. *)
Lemma litellm_ends_at_absent_payload_witness :
  invoke_litellm (PD := permissive_pydantic) (config_for "claude-3-haiku")
    (Some tt)
    [ {| choices := [tool_only_delta] |}; {| choices := [tool_only_delta] |};
      {| choices := [text_only_delta] |}; {| choices := [tool_only_delta] |} ]
    None
  = Stream [(JStr "{}", Some 0); (JStr "{}", Some 0)] None.
Proof.
  exact (litellm_ends_at_absent_payload (PD := permissive_pydantic)
           (config_for "claude-3-haiku") (Some tt)
           [ {| choices := [tool_only_delta] |}; {| choices := [tool_only_delta] |};
             {| choices := [text_only_delta] |}; {| choices := [tool_only_delta] |} ]
           None eq_refl).
Defined.

(** The amended C4 for the identifier [gpt-4o]. *)
Lemma response_format_iff_contains_gpt_witness :
  make_schema_kwargs (PD := permissive_pydantic) (config_for "gpt-4o") (Some tt)
  = ResponseFormat "json_schema" "function" (JObj []) true.
Proof.
  exact (proj1 (proj2 (proj2 (response_format_iff_contains_gpt
                                (PD := permissive_pydantic)
                                (config_for "gpt-4o") tt)))
           eq_refl).
Defined.

(** C3, as stated, fails in both modes.  In tool-calling mode a delta that
    carries text content and no tool call ends the stream; without a schema
    a delta that carries a tool call and no text content ends it.  Neither
    delta resolves to nothing, in both streams more deltas follow, and both
    requests go to the generic adapter. *)
Lemma delta_with_payload_ends_stream :
  resolves_to_nothing text_only_delta = false
  /\ select_adapter (config_for "claude-3-haiku") true = LiteLLM
  /\ invoke_litellm (PD := permissive_pydantic) (config_for "claude-3-haiku")
       (Some tt)
       [ {| choices := [text_only_delta] |}; {| choices := [tool_only_delta] |} ]
       None
     = Stream [] None
  /\ resolves_to_nothing tool_only_delta = false
  /\ select_adapter (config_for "mistral/mistral-large") false = LiteLLM
  /\ invoke_litellm (PD := permissive_pydantic) (config_for "mistral/mistral-large")
       None
       [ {| choices := [tool_only_delta] |}; {| choices := [text_only_delta] |} ]
       None
     = Stream [] None.
Proof. repeat split; reflexivity. Qed.

(** C4, as stated, fails: [openai/gpt-4o] does not start with [gpt], and a
    schema request for it uses the strict response format, not the function
    tool. *)
Lemma response_format_without_gpt_prefix :
  startswith "gpt" (model (config_for "openai/gpt-4o")) = false
  /\ make_schema_kwargs (PD := permissive_pydantic) (config_for "openai/gpt-4o")
       (Some tt)
     = ResponseFormat "json_schema" "function" (JObj []) true.
Proof. split; reflexivity. Qed.

(** ** Dictionaries *)

Lemma dict_get_set (d : dict) (k k' : string) (v : json) :
  dict_get (dict_set d k v) k' = if String.eqb k k' then Some v else dict_get d k'.
Proof.
  induction d as [|[k0 v0] d IH]; simpl.
  - done.
  - destruct (String.eqb_spec k0 k) as [->|Hne]; simpl.
    + by destruct (String.eqb k k').
    + rewrite IH. destruct (String.eqb_spec k0 k') as [->|Hne']; [|done].
      assert (String.eqb k k' = false) as ->; [|done].
      apply String.eqb_neq. congruence.
Qed.

Lemma dict_get_app (a b : dict) (k : string) :
  dict_get (a ++ b) k =
    match dict_get a k with Some v => Some v | None => dict_get b k end.
Proof.
  induction a as [|[k0 v0] a IH]; simpl; [done|].
  by destruct (String.eqb k0 k).
Qed.

(** [d |= other]: a key of [other] takes its last value there, any other
    key keeps the value it has in [d]. *)
Lemma dict_get_update (other : dict) :
  forall (d : dict) (k : string),
    dict_get (dict_update d other) k =
      match dict_get (rev other) k with
      | Some v => Some v
      | None => dict_get d k
      end.
Proof.
  unfold dict_update.
  induction other as [|[k0 v0] other IH]; intros d k; simpl; [done|].
  rewrite IH, dict_get_app, dict_get_set. simpl.
  destruct (dict_get (rev other) k); [done|].
  by destruct (String.eqb k0 k).
Qed.

(** ** Finalization *)

Section Finalizer.
Context {RT : PyRuntime} {PD : Pydantic}.

Lemma merge_all_decoded (buffers : tool_buffers) (objs : list dict) :
  decode_to buffers objs ->
  forall data,
    merge_tool_responses data (map snd buffers) = Ok (fold_left dict_update objs data).
Proof.
  induction 1 as [|b o bs os Hb _ IH]; intros data; simpl; [done|].
  rewrite Hb. simpl. apply IH.
Qed.

Lemma merge_stops_at_undecodable (before : tool_buffers) (objs : list dict)
    (bad : Z * string) (after : tool_buffers) :
  decode_to before objs ->
  json_loads bad.2 = Raise JSONDecodeError ->
  forall data,
    merge_tool_responses data (map snd (before ++ bad :: after))
      = Raise JSONDecodeError.
Proof.
  intros Hbefore Hbad.
  induction Hbefore as [|b o bs os Hb _ IH]; intros data; simpl.
  - by rewrite Hbad.
  - rewrite Hb. simpl. apply IH.
Qed.

(** C1, amended. When at least one tool-slot buffer exists, the buffers are
    decoded and merged in slot insertion order, a later slot overwriting the
    keys it shares with earlier ones, and the merged object is validated;
    a JSON-decode failure of any one buffer (the buffers before it being
    objects) fails the whole finalization, whatever the other buffers
    hold. *)
Theorem tool_buffers_merge_or_fail (tool_responses : tool_buffers)
    (output : string) (schema : OutputSchema) :
  tool_responses <> [] ->
  (forall objs,
      decode_to tool_responses objs ->
      parse_structured_response tool_responses output schema
        = Ok (validated schema (JObj (fold_left dict_update objs []))))
  /\ (forall before objs bad after,
      tool_responses = before ++ bad :: after ->
      decode_to before objs ->
      json_loads bad.2 = Raise JSONDecodeError ->
      parse_structured_response tool_responses output schema = Ok JNull)
  /\ (forall (d other : dict) (k : string),
      dict_get (dict_update d other) k =
        match dict_get (rev other) k with
        | Some v => Some v
        | None => dict_get d k
        end).
Proof.
  intros Hne. split; [|split].
  - intros objs Hobjs. unfold parse_structured_response.
    destruct tool_responses as [|b bs]; [done|].
    rewrite (merge_all_decoded _ _ Hobjs). simpl. unfold validated.
    destruct (construct_model_from_schema schema) as [m|]; [|done].
    by destruct (model_validate m _).
  - intros before objs bad after -> Hbefore Hbad.
    unfold parse_structured_response.
    rewrite (merge_stops_at_undecodable _ _ _ _ Hbefore Hbad).
    by destruct before.
  - intros d other k. apply dict_get_update.
Qed.

End Finalizer.

(** The amended C1 on two buffers sharing the key [b]. *)
Lemma tool_buffers_merge_or_fail_witness :
  parse_structured_response (RT := reference_runtime) (PD := permissive_pydantic)
    two_buffers_colliding EmptyString tt
  = Ok (JObj [("a", JInt 1); ("b", JInt 3)]).
Proof.
  refine (proj1 (tool_buffers_merge_or_fail (RT := reference_runtime)
                   (PD := permissive_pydantic)
                   two_buffers_colliding EmptyString tt _)
            [ [("a", JInt 1); ("b", JInt 2)]; [("b", JInt 3)] ] _).
  - discriminate.
  - repeat constructor.
Defined.

(** C1, as stated, fails: of two buffers the first decodes and the second is
    cut short; skipping the second would leave the object of the first, but
    the finalization returns [None]. *)
Lemma one_undecodable_buffer_fails_finalization :
  @json_loads reference_runtime (json_text "{'a': 1}")
    = Ok (JObj [("a", JInt 1)])
  /\ merge_decodable (RT := reference_runtime) None (map snd two_buffers_second_cut)
     = Some [("a", JInt 1)]
  /\ parse_structured_response (RT := reference_runtime) (PD := permissive_pydantic)
       two_buffers_second_cut EmptyString tt
     = Ok JNull.
Proof. repeat split; vm_compute; reflexivity. Qed.

(** ** Accumulation and retrying *)

Section Accumulator.
Context {RT : PyRuntime}.

Lemma or_None_null (partial_data : dict) :
  or_None partial_data = JNull <-> partial_data = [].
Proof. by destruct partial_data. Qed.

Lemma or_None_not_empty_object (partial_data : dict) :
  or_None partial_data <> JObj [].
Proof. by destruct partial_data. Qed.

(** Every output of the retry loop is the emission of a snapshot that one
    of the attempts yielded. *)
Lemma retry_outputs_are_emissions (attempts : list (stream event)) :
  forall vars o,
    o ∈ retry_outputs vars attempts ->
    exists llm s,
      llm ∈ attempts
      /\ s ∈ items (yielded (iterate_invoke_llm llm))
      /\ o = emit s.
Proof.
  unfold retry_outputs.
  induction attempts as [|llm later IH]; intros vars o; simpl.
  - by intros ?%elem_of_nil.
  - assert (Hhere : o ∈ map emit (items (yielded (iterate_invoke_llm llm))) ->
                    exists llm' s, llm' ∈ llm :: later
                      /\ s ∈ items (yielded (iterate_invoke_llm llm')) /\ o = emit s).
    { intros (s & -> & Hs)%list_elem_of_fmap. exists llm, s.
      split; [left | done]. }
    destruct (ending (yielded (iterate_invoke_llm llm))) as [e|]; [|exact Hhere].
    destruct (is_retry_error e); [|exact Hhere].
    specialize (IH (after_attempt vars (iterate_invoke_llm llm)) o).
    destruct (retrying _ later) as [[outs' vars''] r]. simpl in *.
    intros [Hin | Hin]%elem_of_app; [by apply Hhere|].
    destruct (IH Hin) as (llm' & s & Hllm & Hs & ->).
    exists llm', s. split; [by right | done].
Qed.

(** C10. The [data] of an incremental emission is [None] exactly when the
    merged partial object has no keys, and never an empty object; this holds
    for every output the retry loop of [run] yields.  In particular a tool
    buffer that decodes to the empty object is emitted with [data = None]. *)
Theorem data_is_None_iff_no_keys :
  (forall s : snapshot,
      (data (emit s) = JNull <-> partial_data s = [])
      /\ data (emit s) <> JObj [])
  /\ (forall vars attempts o,
      o ∈ retry_outputs vars attempts ->
      exists llm s,
        llm ∈ attempts
        /\ s ∈ items (yielded (iterate_invoke_llm llm))
        /\ o = emit s
        /\ (data o = JNull <-> partial_data s = [])
        /\ data o <> JObj [])
  /\ (forall buffer slot,
      json_loads buffer = Ok (JObj []) ->
      retry_outputs run_vars_init [Stream [(JStr buffer, Some slot)] None]
        = [ {| result_ := buffer; response := buffer; data := JNull |} ]).
Proof.
  split; [|split].
  - intros s. split; [apply or_None_null | apply or_None_not_empty_object].
  - intros vars attempts o Ho.
    destruct (retry_outputs_are_emissions _ _ _ Ho) as (llm & s & Hllm & Hs & ->).
    exists llm, s. repeat split; try done.
    + by intros ?%or_None_null.
    + by intros ?%or_None_null.
    + apply or_None_not_empty_object.
  - intros buffer slot Hdec.
    assert (Hit : iterate_invoke_llm (Stream [(JStr buffer, Some slot)] None) =
      {| yielded := Stream [ {| output := buffer;
                                tool_responses := [(slot, buffer)];
                                partial_data := [] |} ] None;
         final_tool_responses := [(slot, buffer)] |}).
    { unfold iterate_invoke_llm, fresh_state. simpl.
      rewrite Z.eqb_refl. change (EmptyString +:+ buffer) with buffer.
      by rewrite Hdec. }
    unfold retry_outputs. simpl. by rewrite Hit.
Qed.

Lemma iterate_step_output (st st' : snapshot) (ev : event) (tr : tool_buffers) :
  iterate_step st ev = (tr, Ok st') ->
  output st' = output st +:+ delta_text ev.1.
Proof.
  destruct ev as [[] [slot|]]; simpl; try done.
  - destruct (json_loads _) as [loaded|[]]; simpl;
      try destruct (dict_ior _ _); simpl; intros [= _ <-]; done.
  - by intros [= _ <-].
Qed.

(** An attempt that ends without an exception has taken in every event: its
    last snapshot holds all the deltas, in order, after the initial text. *)
Lemma iterate_loop_complete (events : list event) :
  forall st,
    ending (yielded (iterate_loop st events None)) = None ->
    match last (items (yielded (iterate_loop st events None))) with
    | Some s => output s = output st +:+ concat_deltas events
    | None => events = []
    end.
Proof.
  induction events as [|ev rest IH]; intros st; simpl; [done|].
  destruct (iterate_step st ev) as [tr [st'|e]] eqn:Hstep; simpl; [|done].
  intros Hend. specialize (IH st' Hend).
  rewrite last_cons.
  destruct (last (items (yielded (iterate_loop st' rest None)))) as [s|].
  - by rewrite IH, (iterate_step_output _ _ _ _ Hstep), append_assoc.
  - subst rest. simpl.
    by rewrite (iterate_step_output _ _ _ _ Hstep), append_empty_r.
Qed.

(** The restart holds for a successful attempt that yields at least once:
    whatever the failed attempts left in [output], the loop ends with the
    concatenation of the deltas of the successful attempt. *)
Lemma retry_restart_when_attempt_yields (failed : list (stream event))
    (events : list event) (later : list (stream event)) :
  Forall fails_transiently failed ->
  ending (yielded (iterate_invoke_llm (Stream events None))) = None ->
  events <> [] ->
  forall vars,
    exists outs vars',
      retrying vars (failed ++ Stream events None :: later) = (outs, vars', Succeeded)
      /\ run_output vars' = concat_deltas events.
Proof.
  intros Hfailed Hend Hne.
  induction Hfailed as [|llm failed (e & He & Hretry) _ IH]; intros vars; simpl.
  - rewrite Hend. eexists _, _. split; [done|].
    unfold after_attempt, iterate_invoke_llm in *. simpl in *.
    pose proof (iterate_loop_complete events fresh_state Hend) as Hlast.
    destruct (last _) as [s|]; [simpl; by rewrite Hlast | done].
  - rewrite He, Hretry.
    destruct (IH (after_attempt vars (iterate_invoke_llm llm)))
      as (outs & vars' & -> & Hout).
    by eexists _, _.
Qed.

End Accumulator.

(** C10 at a concrete buffer: the text of the empty object in slot 0. *)
Lemma data_is_None_iff_no_keys_witness :
  retry_outputs (RT := reference_runtime) run_vars_init
    [Stream [(JStr "{}", Some 0)] None]
  = [ {| result_ := "{}"; response := "{}"; data := JNull |} ].
Proof.
  exact (proj2 (proj2 (data_is_None_iff_no_keys (RT := reference_runtime)))
           "{}" 0 eq_refl).
Defined.

(** C5 at a failing input.  The first attempt yields the text of an object
    and then fails with a retry error; the second attempt succeeds without
    yielding a delta, so the concatenation of its deltas is empty.  Yet [run]
    completes with the text of the failed attempt as its output, and its
    final structured output is decoded from that text. *)
Theorem failed_attempt_output_survives_empty_retry :
  concat_deltas [] = EmptyString
  /\ run (RT := reference_runtime) (LL := counting_litellm)
       fails_then_yields_nothing (inputs_with (Some tt))
     = {| emitted :=
            [ {| result_ := json_text "{'a': 1}"; response := json_text "{'a': 1}";
                 data := JNull |};
              {| result_ := json_text "{'a': 1}"; response := json_text "{'a': 1}";
                 data := JObj [("a", JInt 1)] |} ];
          run_ending := Completed;
          final_vars := {| run_output := json_text "{'a': 1}";
                           run_tool_responses := [] |} |}.
Proof. split; vm_compute; reflexivity. Qed.

(** ** Credential injection *)

(** Restoring from the backup taken just before the assignment undoes the
    assignment. *)
Lemma restore_var_insert (name secret : string) (env : environ) :
  restore_var name (env !! name) (<[name := secret]> env) = env.
Proof.
  unfold restore_var. destruct (env !! name) as [v|] eqn:Hv.
  - by rewrite insert_insert_eq, insert_id.
  - rewrite bool_decide_eq_true_2 by (rewrite lookup_insert_eq; eauto).
    by rewrite delete_insert_eq, delete_id.
Qed.

(** With no backup, [exit] leaves no value for the variable. *)
Lemma restore_var_no_backup (name : string) (env : environ) :
  restore_var name None env !! name = None.
Proof.
  unfold restore_var. case_bool_decide as Hs.
  - apply lookup_delete_eq.
  - by apply eq_None_not_Some.
Qed.

Section CredentialContext.
Context {HO : Host}.

(** When both secrets are configured and the credentials decode, entering
    and leaving the context gives back the environment it found, whatever
    the singleton holds from earlier uses. *)
Lemma with_context_restores_when_secrets_given (self : PromptEnvContext)
    (env : environ) (key b64 creds : string) :
  get_secret "ANTHROPIC_API_KEY" = Some key ->
  get_secret "GCP_CREDENTIALS_64" = Some b64 ->
  b64decode_ascii b64 = Some creds ->
  (with_context self env).1.2 = env /\ (with_context self env).2 = None.
Proof.
  intros Hkey Hb64 Hcreds. unfold with_context, enter, exit.
  rewrite Hkey, Hb64, Hcreds. simpl. split; [|done].
  rewrite lookup_insert_ne by done.
  rewrite insert_insert_ne by done.
  rewrite <- (lookup_insert_ne env "GOOGLE_APPLICATION_CREDENTIALS"
                "ANTHROPIC_API_KEY" temp_file_name) at 1 by done.
  by rewrite !restore_var_insert.
Qed.

(** When a secret is not configured, a fresh context leaves its variable
    without a value on the way out, whatever value it held on entry. *)
Lemma with_context_clears_unconfigured (env : environ) :
  get_secret "ANTHROPIC_API_KEY" = None ->
  get_secret "GCP_CREDENTIALS_64" = None ->
  (with_context PromptEnvContext_init env).1.2 !! "GOOGLE_APPLICATION_CREDENTIALS"
    = None.
Proof.
  intros Hkey Hb64. unfold with_context, enter, exit.
  rewrite Hkey, Hb64. simpl. apply restore_var_no_backup.
Qed.

End CredentialContext.

(** With both secrets configured the variables come back as they were. *)
Example with_context_restores_both :
  with_context (HO := both_secrets) PromptEnvContext_init env_with_adc
  = ({| anthropic_env_var_bak := None;
        gcp_env_var_bak := Some "/srv/adc.json";
        file := Some {| file_name := "/tmp/tmpcred"; file_contents := "{}";
                        closed := true |} |},
     env_with_adc, None).
Proof. vm_compute. reflexivity. Qed.

(** C2 at a failing input.  No secret is configured and the process
    environment points [GOOGLE_APPLICATION_CREDENTIALS] at a credentials file.
    Entering and leaving the context raises nothing and leaves the variable
    unset: its prior value is not restored. *)
Theorem exit_unsets_preexisting_credentials_variable :
  env_with_adc !! "GOOGLE_APPLICATION_CREDENTIALS" = Some "/srv/adc.json"
  /\ with_context (HO := no_secrets) PromptEnvContext_init env_with_adc
     = (PromptEnvContext_init, ∅, None)
  /\ (∅ : environ) !! "GOOGLE_APPLICATION_CREDENTIALS" = None.
Proof. repeat split; vm_compute; reflexivity. Qed.

(** ** The Ollama adapter *)

Lemma length_append (a b : string) :
  String.length (a +:+ b) = (String.length a + String.length b)%nat.
Proof.
  induction a as [|c a IH]; [done | rewrite append_cons; simpl; by rewrite IH].
Qed.

Lemma all_ascii_app (a b : string) :
  all_ascii (a +:+ b) = all_ascii a && all_ascii b.
Proof.
  induction a as [|c a IH]; [done|].
  rewrite append_cons. simpl. by rewrite IH, andb_assoc.
Qed.

Lemma all_ascii_valid (s : string) : all_ascii s = true -> Utf8.valid s = true.
Proof.
  induction s as [|c s IH]; [done|].
  simpl. intros [Hc Hs]%andb_true_iff. rewrite Hc. by apply IH.
Qed.

Lemma split_newline_length (s line rest : string) :
  split_newline s = Some (line, rest) ->
  String.length s = S (String.length line + String.length rest).
Proof.
  revert line; induction s as [|c s IH]; intros line; simpl; [done|].
  destruct (Ascii.eqb c LF).
  - by intros [= <- <-].
  - destruct (split_newline s) as [[l r]|]; [|done].
    intros [= <- <-]. simpl. by rewrite (IH l).
Qed.

(** The line split off holds no newline, and the buffer is the line, the
    newline, and the rest. *)
Lemma split_newline_spec (s line rest : string) :
  split_newline s = Some (line, rest) ->
  s = line +:+ nl +:+ rest /\ split_newline line = None.
Proof.
  revert line; induction s as [|c s IH]; intros line; simpl; [done|].
  destruct (Ascii.eqb_spec c LF) as [->|Hne].
  - by intros [= <- <-].
  - destruct (split_newline s) as [[l r]|]; [|done].
    intros [= <- <-]. destruct (IH l eq_refl) as [-> Hl].
    split; [done|]. simpl. rewrite Hl.
    by apply Ascii.eqb_neq in Hne as ->.
Qed.

Lemma split_newline_at (line rest : string) :
  split_newline line = None ->
  split_newline (line +:+ nl +:+ rest) = Some (line, rest).
Proof.
  induction line as [|c line IH]; [done|].
  rewrite append_cons. simpl. destruct (Ascii.eqb c LF); [done|].
  destruct (split_newline line) as [[l r]|]; [done|]. intros _. by rewrite IH.
Qed.

Lemma split_newline_app_some (a b line rest : string) :
  split_newline a = Some (line, rest) ->
  split_newline (a +:+ b) = Some (line, rest +:+ b).
Proof.
  intros [-> Hline]%split_newline_spec.
  rewrite !append_assoc. by apply split_newline_at.
Qed.

Section Ollama.
Context {RT : PyRuntime}.

Lemma process_completion_spec (completion : string) :
  process_completion completion =
    if negb (str_truthy completion) then Ok None else
    match json_loads completion with
    | Ok data =>
        Ok (match message_content data with
            | Some delta => if truthy delta then Some delta else None
            | None => None
            end)
    | Raise JSONDecodeError => Ok None
    | Raise e => Raise e
    end.
Proof.
  unfold process_completion, message_content.
  destruct (negb _); [done|].
  destruct (json_loads completion) as [[| | | | | |d]|]; try done.
  destruct (dict_get d "message") as [[| | | | | |m]|]; try done.
  destruct (dict_get m "content") as [delta|]; [|done].
  by destruct (truthy delta).
Qed.

(** Enough fuel is enough: the loop does not depend on the fuel beyond the
    length of the buffer. *)
Lemma drain_lines_fuel (f1 : nat) :
  forall f2 buffer,
    (String.length buffer < f1)%nat -> (String.length buffer < f2)%nat ->
    drain_lines f1 buffer = drain_lines f2 buffer.
Proof.
  induction f1 as [|f1 IH]; intros f2 buffer H1 H2; [lia|].
  destruct f2 as [|f2]; [lia|]. simpl.
  destruct (split_newline buffer) as [[line rest]|] eqn:Hsplit; [|done].
  apply split_newline_length in Hsplit.
  destruct (process_completion line); [|done].
  by rewrite (IH f2 rest) by lia.
Qed.

Lemma drain_unfold (buffer : string) :
  drain buffer =
    match split_newline buffer with
    | None => ([], Ok buffer)
    | Some (json_, buffer') =>
        match process_completion json_ with
        | Raise e => ([], Raise e)
        | Ok completion =>
            let '(evs, r) := drain buffer' in (to_events completion ++ evs, r)
        end
    end.
Proof.
  unfold drain. simpl.
  destruct (split_newline buffer) as [[line rest]|] eqn:Hsplit; [|done].
  apply split_newline_length in Hsplit.
  destruct (process_completion line); [|done].
  by rewrite (drain_lines_fuel _ (S (String.length rest)) rest) by lia.
Qed.

(** When the loop returns, no newline is left in the buffer. *)
Lemma drain_leaves_no_newline (n : nat) :
  forall buffer evs rest,
    (String.length buffer <= n)%nat ->
    drain buffer = (evs, Ok rest) -> split_newline rest = None.
Proof.
  induction n as [|n IH]; intros buffer evs rest Hlen; rewrite drain_unfold.
  - destruct buffer; [|simpl in Hlen; lia]. by intros [= _ <-].
  - destruct (split_newline buffer) as [[line rest']|] eqn:Hsplit.
    + apply split_newline_length in Hsplit.
      destruct (process_completion line); [|done].
      destruct (drain rest') as [evs' r] eqn:Hdrain.
      intros [= _ ->]. apply (IH rest' evs' rest); [lia | done].
    + by intros [= _ <-].
Qed.

(** Draining a buffer to which more text is appended is draining the
    buffer, then draining what is left of it followed by that text. *)
Lemma drain_app (n : nat) :
  forall a b,
    (String.length a <= n)%nat ->
    drain (a +:+ b) =
      match drain a with
      | (evs, Raise e) => (evs, Raise e)
      | (evs, Ok rest) =>
          let '(evs', r) := drain (rest +:+ b) in (evs ++ evs', r)
      end.
Proof.
  induction n as [|n IH]; intros a b Hlen.
  - destruct a; [|simpl in Hlen; lia].
    rewrite (drain_unfold EmptyString). simpl.
    by destruct (drain (EmptyString +:+ b)).
  - rewrite (drain_unfold a).
    destruct (split_newline a) as [[line rest]|] eqn:Hsplit.
    + rewrite drain_unfold, (split_newline_app_some _ _ _ _ Hsplit).
      apply split_newline_length in Hsplit.
      destruct (process_completion line) as [completion|e]; [|done].
      rewrite (IH rest b) by lia.
      destruct (drain rest) as [evs [rest'|e]]; [|done].
      destruct (drain (rest' +:+ b)) as [evs' r]. by rewrite app_assoc.
    + simpl. by destruct (drain (a +:+ b)).
Qed.

Lemma yield_then_app {A} (xs ys : list A) (s : stream A) :
  yield_then xs (yield_then ys s) = yield_then (xs ++ ys) s.
Proof. unfold yield_then. simpl. by rewrite app_assoc. Qed.

Lemma ollama_body_cons (buffer completion : string) (rest : list string)
    (end_of_body : option exn) :
  ollama_body buffer (completion :: rest) end_of_body =
    match Utf8.decode completion with
    | Raise e => raised e
    | Ok text =>
        match drain (buffer +:+ text) with
        | (evs, Raise e) => Stream evs (Some e)
        | (evs, Ok buffer') => yield_then evs (ollama_body buffer' rest end_of_body)
        end
    end.
Proof. reflexivity. Qed.

(** Two chunks read one after the other are read as their concatenation in
    one piece. *)
Lemma ollama_body_merge (buffer c1 c2 : string) (rest : list string)
    (end_of_body : option exn) :
  Utf8.valid c1 = true -> Utf8.valid c2 = true -> Utf8.valid (c1 +:+ c2) = true ->
  ollama_body buffer (c1 :: c2 :: rest) end_of_body
    = ollama_body buffer ((c1 +:+ c2) :: rest) end_of_body.
Proof.
  intros H1 H2 H12. rewrite (ollama_body_cons _ c1), (ollama_body_cons _ (c1 +:+ c2)).
  unfold Utf8.decode. rewrite H1, H12.
  rewrite <- append_assoc, (drain_app _ (buffer +:+ c1) c2 (le_n _)).
  destruct (drain (buffer +:+ c1)) as [evs [rest1|e]]; [|done].
  rewrite ollama_body_cons. unfold Utf8.decode. rewrite H2.
  destruct (drain (rest1 +:+ c2)) as [evs' [rest2|e]]; [|done].
  by rewrite yield_then_app.
Qed.

End Ollama.

Section OllamaWire.
Context {RT : PyRuntime}.

Lemma drain_complete_line (line rest : string) (completion : option json) :
  split_newline line = None ->
  process_completion line = Ok completion ->
  drain (line +:+ nl +:+ rest) =
    let '(evs, r) := drain rest in (to_events completion ++ evs, r).
Proof.
  intros Hline Hproc.
  by rewrite drain_unfold, (split_newline_at _ _ Hline), Hproc.
Qed.

Lemma drain_partial_line (buffer : string) :
  split_newline buffer = None -> drain buffer = ([], Ok buffer).
Proof. intros Hsplit. by rewrite drain_unfold, Hsplit. Qed.

(** The two lines in one piece. *)
Lemma ollama_body_two_lines :
  json_loads line_hi
    = Ok (JObj [("message", JObj [("content", JStr "Hi")])]) ->
  json_loads line_there
    = Ok (JObj [("message", JObj [("content", JStr " there")])]) ->
  ollama_body EmptyString [two_line_payload] None
    = Stream [(JStr "Hi", None); (JStr " there", None)] None.
Proof.
  intros Hhi Hthere.
  assert (process_completion line_hi = Ok (Some (JStr "Hi"))) as Phi
    by (by rewrite process_completion_spec, Hhi).
  assert (process_completion line_there = Ok (Some (JStr " there"))) as Pthere
    by (by rewrite process_completion_spec, Hthere).
  rewrite ollama_body_cons.
  replace (Utf8.decode two_line_payload) with (Ok two_line_payload)
    by (vm_compute; reflexivity).
  change (EmptyString +:+ two_line_payload)
    with (line_hi +:+ nl +:+ line_there +:+ nl +:+ EmptyString).
  rewrite (drain_complete_line line_hi _ _ eq_refl Phi).
  rewrite (drain_complete_line line_there _ _ eq_refl Pthere).
  by rewrite (drain_partial_line EmptyString eq_refl).
Qed.

(** What holds of the wire parsing.  With the two lines decoding as
    [json.loads] decodes them, the payload of the two newline-terminated
    lines, delivered in two chunks cut at any offset, yields exactly the
    deltas [Hi] and [ there], in that order.  A line that is empty or
    malformed, that lacks the expected keys, or whose content is falsy
    yields nothing and raises nothing, and the lines after it are read as if
    it were not there.  A trailing partial line stays in the buffer while
    chunks arrive and is parsed when the body ends. *)
Theorem ollama_lines_across_chunks :
  json_loads line_hi
    = Ok (JObj [("message", JObj [("content", JStr "Hi")])]) ->
  json_loads line_there
    = Ok (JObj [("message", JObj [("content", JStr " there")])]) ->
  (forall c1 c2,
      c1 +:+ c2 = two_line_payload ->
      invoke_ollama {| status := 200; body_chunks := [c1; c2]; body_end := None |}
        = Stream [(JStr "Hi", None); (JStr " there", None)] None)
  /\ (forall line,
      line = EmptyString
      \/ json_loads line = Raise JSONDecodeError
      \/ (exists data, json_loads line = Ok data /\ message_content data = None)
      \/ (exists data delta, json_loads line = Ok data
                             /\ message_content data = Some delta
                             /\ truthy delta = false) ->
      process_completion line = Ok None)
  /\ (forall line rest,
      split_newline line = None ->
      process_completion line = Ok None ->
      drain (line +:+ nl +:+ rest) = drain rest)
  /\ (forall buffer,
      split_newline buffer = None ->
      drain buffer = ([], Ok buffer)
      /\ ollama_body buffer [] None =
           if str_truthy buffer then
             match process_completion buffer with
             | Ok completion => Stream (to_events completion) None
             | Raise e => raised e
             end
           else returned).
Proof.
  intros Hhi Hthere. repeat split.
  - intros c1 c2 Hcut. unfold invoke_ollama.
    cbn [status body_chunks body_end]. change (400 <=? 200) with false. cbv iota.
    assert (all_ascii (c1 +:+ c2) = true) as Hascii
      by (rewrite Hcut; vm_compute; reflexivity).
    pose proof Hascii as [H1 H2]%(eq_trans (eq_sym (all_ascii_app _ _)))%andb_true_iff.
    rewrite ollama_body_merge by (by apply all_ascii_valid).
    rewrite Hcut. by apply ollama_body_two_lines.
  - intros line Hline. rewrite process_completion_spec.
    destruct Hline as [-> | [-> | [(data & -> & ->) | (data & delta & -> & -> & ->)]]];
      try done; by destruct (negb _).
  - intros line rest Hline Hproc.
    rewrite (drain_complete_line _ _ _ Hline Hproc). by destruct (drain rest).
  - by apply drain_partial_line.
Qed.

(** A line of the expected shape whose content is truthy is yielded
    whatever the type of the content; an exception of [json.loads] other
    than [JSONDecodeError] leaves [process_completion]. *)
Lemma truthy_content_is_yielded (line : string) :
  line <> EmptyString ->
  (forall data delta,
      json_loads line = Ok data ->
      message_content data = Some delta ->
      truthy delta = true ->
      process_completion line = Ok (Some delta))
  /\ (forall e,
      json_loads line = Raise e -> e <> JSONDecodeError ->
      process_completion line = Raise e).
Proof.
  intros Hline. rewrite process_completion_spec.
  destruct line; [done|]. simpl. split.
  - by intros data delta -> -> ->.
  - intros e -> He. by destruct e.
Qed.

End OllamaWire.

(** The two lines with the reference decoder, for the payload cut inside
    the second line. *)
Lemma ollama_lines_across_chunks_witness :
  invoke_ollama (RT := reference_runtime)
    {| status := 200;
       body_chunks := [ line_hi +:+ nl +:+ json_text "{'message':{'cont";
                        json_text "ent':' there'}}" +:+ nl ];
       body_end := None |}
  = Stream [(JStr "Hi", None); (JStr " there", None)] None.
Proof.
  refine (proj1 (ollama_lines_across_chunks (RT := reference_runtime) _ _)
            (line_hi +:+ nl +:+ json_text "{'message':{'cont")
            (json_text "ent':' there'}}" +:+ nl) _);
    vm_compute; reflexivity.
Defined.

(** * Further properties of the code *)

(** ** Message assembly *)

Lemma segment_messages_app (a b : list (Role * list string)) :
  segment_messages (a ++ b) = segment_messages a ++ segment_messages b.
Proof. unfold segment_messages. by rewrite filter_app, map_app. Qed.

Lemma assemble_from_segments (r : Role) (q : QuoteStyle) (els : list PromptElement) :
  assemble_from r q els = Ok (segment_messages (role_segments q r [] els)).
Proof.
  unfold assemble_from.
  destruct (bm_loop_total q els
              {| messages := []; current_role := r; current_message_elements := [] |})
    as [st Hst].
  rewrite Hst. simpl. by rewrite (bm_loop_segments _ _ _ _ Hst).
Qed.

(** Two tails that split into the same segments do so after any common
    beginning. *)
Lemma role_segments_tail (q : QuoteStyle) (x y : list PromptElement) :
  (forall r cur, role_segments q r cur x = role_segments q r cur y) ->
  forall l r cur, role_segments q r cur (l ++ x) = role_segments q r cur (l ++ y).
Proof.
  intros Hxy l. induction l as [|pe l IH]; intros r cur; simpl; [apply Hxy|].
  destruct (starts_segment pe); by rewrite IH.
Qed.

Lemma role_segments_marker (q : QuoteStyle) (r' : Role) (l2 : list PromptElement) :
  forall l1 r cur,
    role_segments q r cur (l1 ++ Elem (RoleElement r') :: l2)
      = role_segments q r cur l1 ++ role_segments q r' [] l2.
Proof.
  induction l1 as [|pe l1 IH]; intros r cur; simpl; [done|].
  destruct (starts_segment pe); by rewrite IH.
Qed.

(** X1. A text block with a role of its own assembles like a role marker
    followed by the same text without role, and a plain string like a text
    block without role, wherever they stand in the prompt. *)
Theorem role_of_text_block_is_a_marker (quote_style : QuoteStyle)
    (before after : list PromptElement) (text : string) (role : Role) :
  assemble (PromptList (before ++ Elem (TextElement text (Some role)) :: after))
    quote_style
  = assemble
      (PromptList (before ++ Elem (RoleElement role)
                            :: Elem (TextElement text None) :: after))
      quote_style
  /\ assemble (PromptList (before ++ Str text :: after)) quote_style
     = assemble (PromptList (before ++ Elem (TextElement text None) :: after))
         quote_style.
Proof.
  rewrite !assemble_list_segments. unfold nonempty_segments. split.
  - by rewrite (role_segments_tail quote_style
                  (Elem (TextElement text (Some role)) :: after)
                  (Elem (RoleElement role) :: Elem (TextElement text None) :: after)).
  - by rewrite (role_segments_tail quote_style
                  (Str text :: after) (Elem (TextElement text None) :: after)).
Qed.

(** X2. A role marker cuts the assembly in two: the messages of a prompt are
    the messages of what precedes the marker followed by the messages of what
    follows it, assembled under the marker's role. *)
Theorem role_marker_splits_assembly (quote_style : QuoteStyle)
    (before after : list PromptElement) (role : Role) :
  exists first_messages later_messages,
    assemble (PromptList before) quote_style = Ok first_messages
    /\ assemble_from role quote_style after = Ok later_messages
    /\ assemble (PromptList (before ++ Elem (RoleElement role) :: after)) quote_style
       = Ok (first_messages ++ later_messages).
Proof.
  eexists _, _. split; [apply assemble_list_segments|].
  split; [apply assemble_from_segments|].
  rewrite assemble_list_segments. f_equal. unfold nonempty_segments.
  rewrite role_segments_marker. apply segment_messages_app.
Qed.

Lemma role_segments_markers_only (q : QuoteStyle) (els : list PromptElement) :
  forallb is_marker els = true ->
  forall r, segment_messages (role_segments q r [] els) = [].
Proof.
  induction els as [|pe els IH]; intros Hall r; [done|].
  simpl in Hall. apply andb_true_iff in Hall as [Hpe Hels].
  destruct pe as [[r' | |]|]; try done. simpl.
  rewrite segment_messages_cons. by apply IH.
Qed.

Lemma role_segments_role_free (q : QuoteStyle) (els : list PromptElement) :
  forallb role_free els = true ->
  forall r cur,
    role_segments q r cur els = [(r, cur ++ concat (map (text_of q) els))].
Proof.
  induction els as [|pe els IH]; intros Hall r cur; simpl.
  - by rewrite app_nil_r.
  - simpl in Hall. apply andb_true_iff in Hall as [Hpe Hels].
    unfold role_free in Hpe.
    destruct (starts_segment pe); [done|]. by rewrite IH, app_assoc.
Qed.

(** X3. A prompt of role markers only, or without elements, assembles to no
    message at all; a prompt of one or more elements none of which bears a
    role assembles to a single [user] message, the blank-line join of their
    texts in order. *)
Theorem assembly_without_text_or_without_roles (quote_style : QuoteStyle) :
  (forall els,
      forallb is_marker els = true ->
      assemble (PromptList els) quote_style = Ok [])
  /\ (forall els,
      els <> [] ->
      forallb role_free els = true ->
      assemble (PromptList els) quote_style
        = Ok [Message user
                (join (nl +:+ nl) (concat (map (text_of quote_style) els)))]).
Proof.
  split; intros els.
  - intros Hall. rewrite assemble_list_segments. f_equal.
    by apply role_segments_markers_only.
  - intros Hne Hall. rewrite assemble_list_segments. f_equal.
    unfold nonempty_segments. rewrite (role_segments_role_free _ _ Hall).
    change (segment_messages [(user, [] ++ concat (map (text_of quote_style) els))]
            = [Message user (join (nl +:+ nl) (concat (map (text_of quote_style) els)))]).
    rewrite segment_messages_cons.
    destruct els as [|pe els]; [done|]. simpl in Hall.
    apply andb_true_iff in Hall as [Hpe _]. unfold role_free in Hpe.
    destruct pe as [[r | text [r|] | value heading] | s]; try done;
      by destruct quote_style.
Qed.

(** X4. Without an explicit quote style the style is XML exactly when the
    model identifier contains [claude], in particular for every model that
    goes to the native Anthropic adapter; an explicit style is kept as
    given. *)
Theorem default_quote_style (model_config : ModelConfig) :
  (resolve_quote_style model_config None = XML
   <-> exists pre post, model model_config = pre +:+ "claude" +:+ post)
  /\ (resolve_quote_style model_config None = BACKTICKS
      <-> ~ exists pre post, model model_config = pre +:+ "claude" +:+ post)
  /\ (forall schema_given,
      select_adapter model_config schema_given = Anthropic ->
      resolve_quote_style model_config None = XML)
  /\ (forall quote_style,
      resolve_quote_style model_config (Some quote_style) = quote_style).
Proof.
  rewrite <- str_in_spec. unfold resolve_quote_style. repeat split.
  - by destruct (str_in "claude" (model model_config)).
  - by intros ->.
  - by destruct (str_in "claude" (model model_config)).
  - by destruct (str_in "claude" (model model_config)).
  - intros schema_given. unfold select_adapter.
    destruct (startswith "claude" (model model_config)) eqn:Hpre.
    + apply startswith_spec in Hpre as [post Hpost].
      assert (str_in "claude" (model model_config) = true) as ->; [|done].
      apply str_in_spec. exists EmptyString, post. by rewrite Hpost.
    + simpl. by destruct (_ && _).
Qed.

(** ** The native Anthropic adapter *)

Lemma message_eta (l : list message) :
  map (fun m => Message (msg_role m) (content m)) l = l.
Proof. induction l as [|[r c] l IH]; simpl; [done | by rewrite IH]. Qed.

Lemma anthropic_messages_filter (messages : list message) :
  anthropic_messages messages
    = filter (fun m => msg_role m <> system) messages.
Proof.
  unfold anthropic_messages, compatible_messages.
  rewrite message_eta, list_filter_filter. apply list_filter_iff.
  intros [[] c]; simpl; intuition congruence.
Qed.

Lemma filter_covered (sys comp l : list message) :
  (forall m, m ∈ l -> m ∈ sys \/ m ∈ comp) ->
  filter (fun m => (m ∉ sys) /\ (m ∉ comp)) l = [].
Proof.
  induction l as [|m l IH]; intros Hin; [done|].
  rewrite filter_cons_False.
  - apply IH. intros m' Hm'. apply Hin. by right.
  - intros [Hs Hc]. destruct (Hin m); [by left | done | done].
Qed.

(** X5. The native Anthropic adapter leaves no assembled message out: every
    message goes either into the system prompt or into the conversation, the
    conversation keeps the non-system messages in their order, and the list
    reported by the warning is empty. *)
Theorem anthropic_split_keeps_every_message (messages : list message) :
  outstanding_messages messages = []
  /\ anthropic_messages messages
       = filter (fun m => msg_role m <> system) messages
  /\ (length (system_messages messages) + length (anthropic_messages messages)
      = length messages)%nat
  /\ (forall m, m ∈ messages ->
        m ∈ system_messages messages \/ m ∈ anthropic_messages messages).
Proof.
  split; [|split; [apply anthropic_messages_filter | split]].
  - apply filter_covered. intros m Hm.
    unfold system_messages, compatible_messages.
    rewrite !list_elem_of_filter. destruct m as [[] c]; simpl; intuition.
  - rewrite anthropic_messages_filter. unfold system_messages.
    induction messages as [|[r c] l IH]; [done|].
    rewrite !filter_cons. simpl.
    destruct r; simpl; rewrite <- IH; repeat case_decide; simpl; try done; lia.
  - intros m Hm. rewrite anthropic_messages_filter. unfold system_messages.
    rewrite !list_elem_of_filter.
    destruct (decide (msg_role m = system)); intuition.
Qed.

(** ** The Ollama adapter: the request and the body *)

Lemma drop_prefix_spec (p s rest : string) :
  drop_prefix p s = Some rest <-> s = p +:+ rest.
Proof.
  revert s; induction p as [|a p IH]; intros s; simpl.
  - split; [by intros [= ->] | by intros ->].
  - destruct s as [|b s]; [done|]. rewrite append_cons.
    destruct (Ascii.eqb_spec a b) as [->|Hne].
    + rewrite IH. split; [by intros -> | by intros [= ->]].
    + split; [done | intros [= <- _]; done].
Qed.

Lemma drop_prefix_startswith (p s : string) :
  startswith p s = match drop_prefix p s with Some _ => true | None => false end.
Proof.
  revert s; induction p as [|a p IH]; intros s; simpl; [done|].
  destruct s as [|b s]; [done|]. by destruct (Ascii.eqb a b).
Qed.

Lemma or_else_nonempty (a : option string) (b : string) :
  b <> EmptyString -> or_else a b <> EmptyString.
Proof. intros Hb. unfold or_else. by destruct a as [[|c s]|]. Qed.

Section OllamaRequest.
Context {HO : Host}.

(** X6. For a model that goes to the native Ollama adapter, the name sent
    is the identifier without its [ollama/] prefix, so that the prefix put
    back gives the identifier; an identifier without the prefix is sent as
    it is.  The base of the URL is never empty: a configured [api_base] is
    used unless it is the empty string, then the [OLLAMA_API_BASE] secret
    unless empty, then the local default. *)
Theorem ollama_request_target (model_config : ModelConfig) :
  (forall schema_given,
      select_adapter model_config schema_given = Ollama ->
      "ollama/" +:+ ollama_model_name model_config = model model_config)
  /\ (startswith "ollama/" (model model_config) = false ->
      ollama_model_name model_config = model model_config)
  /\ ollama_api_base model_config <> EmptyString
  /\ (forall base,
      api_base model_config = Some base -> base <> EmptyString ->
      ollama_api_url model_config = base +:+ "/api/chat")
  /\ (forall secret,
      (api_base model_config = None \/ api_base model_config = Some EmptyString) ->
      get_secret "OLLAMA_API_BASE" = Some secret -> secret <> EmptyString ->
      ollama_api_url model_config = secret +:+ "/api/chat")
  /\ ((api_base model_config = None \/ api_base model_config = Some EmptyString) ->
      (get_secret "OLLAMA_API_BASE" = None
       \/ get_secret "OLLAMA_API_BASE" = Some EmptyString) ->
      ollama_api_url model_config = "http://localhost:11434/api/chat").
Proof.
  unfold ollama_model_name, removeprefix. repeat split.
  - intros schema_given. unfold select_adapter.
    destruct (startswith "claude" (model model_config) && negb schema_given); [done|].
    destruct (startswith "ollama/" (model model_config)) eqn:Hpre; [|done].
    intros _. rewrite drop_prefix_startswith in Hpre.
    destruct (drop_prefix "ollama/" (model model_config)) as [rest|] eqn:Hdrop;
      [|done].
    by apply drop_prefix_spec in Hdrop.
  - rewrite drop_prefix_startswith. by destruct (drop_prefix _ _).
  - unfold ollama_api_base. by do 2 apply or_else_nonempty.
  - intros base Hbase Hne. unfold ollama_api_url, ollama_api_base.
    rewrite Hbase. simpl. by destruct base.
  - intros secret Hbase Hsecret Hne. unfold ollama_api_url, ollama_api_base.
    rewrite Hsecret. by destruct Hbase as [-> | ->], secret.
  - intros Hbase Hsecret. unfold ollama_api_url, ollama_api_base.
    by destruct Hbase as [-> | ->], Hsecret as [-> | ->].
Qed.

End OllamaRequest.

Lemma valid_cons (a : ascii) (s1 : string) :
  Utf8.valid (String a s1) =
    if Utf8.byte_in 0 127 a then Utf8.valid s1 else
    match s1 with
    | EmptyString => false
    | String b s2 =>
        if Utf8.byte_in 194 223 a then Utf8.cont b && Utf8.valid s2 else
        match s2 with
        | EmptyString => false
        | String c s3 =>
            if Utf8.byte_in 224 239 a then
              (if N_of_ascii a =? 224 then Utf8.byte_in 160 191 b
               else if N_of_ascii a =? 237 then Utf8.byte_in 128 159 b
               else Utf8.cont b)%N
              && Utf8.cont c && Utf8.valid s3
            else
            match s3 with
            | EmptyString => false
            | String d s4 =>
                Utf8.byte_in 240 244 a
                && (if N_of_ascii a =? 240 then Utf8.byte_in 144 191 b
                    else if N_of_ascii a =? 244 then Utf8.byte_in 128 143 b
                    else Utf8.cont b)%N
                && Utf8.cont c && Utf8.cont d && Utf8.valid s4
            end
        end
    end.
Proof. reflexivity. Qed.

Lemma closes_sequence (c : ascii) :
  Utf8.byte_in 0 127 c = true \/ Utf8.cont c = true -> opens_sequence c = false.
Proof.
  unfold Utf8.cont, Utf8.byte_in, opens_sequence.
  intros [[_ H]%andb_true_iff | [_ H]%andb_true_iff];
    apply N.leb_le in H; apply N.leb_gt; lia.
Qed.

Lemma byte_in_cont (lo hi : N) (c : ascii) :
  (128 <= lo)%N -> (hi <= 191)%N ->
  Utf8.byte_in lo hi c = true -> Utf8.cont c = true.
Proof.
  unfold Utf8.cont, Utf8.byte_in. intros Hlo Hhi [H1 H2]%andb_true_iff.
  apply N.leb_le in H1, H2. apply andb_true_iff. split; apply N.leb_le; lia.
Qed.

Lemma announced_two (a : ascii) :
  Utf8.byte_in 194 223 a = true -> announced a = 2%nat.
Proof.
  unfold Utf8.byte_in, announced. intros [_ H]%andb_true_iff.
  apply N.leb_le in H. by rewrite (proj2 (N.ltb_lt _ _)) by lia.
Qed.

Lemma announced_three (a : ascii) :
  Utf8.byte_in 224 239 a = true -> announced a = 3%nat.
Proof.
  unfold Utf8.byte_in, announced. intros [H1 H2]%andb_true_iff.
  apply N.leb_le in H1, H2.
  rewrite (proj2 (N.ltb_ge _ _)) by lia.
  by rewrite (proj2 (N.ltb_lt _ _)) by lia.
Qed.

Lemma announced_at_most_four (a : ascii) : (announced a <= 4)%nat.
Proof. unfold announced. repeat case_match; lia. Qed.

Lemma ends_open_cons (a : ascii) (r : string) :
  ends_open (String a r) = truncated (String a r) || ends_open r.
Proof. reflexivity. Qed.

(** A sequence that does not start with a first byte, or that has all the
    bytes its first byte announces, is no truncated character. *)
Lemma closed_not_truncated (a : ascii) (r : string) :
  opens_sequence a = false -> truncated (String a r) = false.
Proof. unfold truncated. by intros ->. Qed.

Lemma complete_not_truncated (a : ascii) (r : string) :
  (announced a <= String.length (String a r))%nat ->
  truncated (String a r) = false.
Proof.
  intros Hlen. unfold truncated.
  rewrite (proj2 (Nat.ltb_ge _ _) Hlen). by rewrite andb_false_r.
Qed.

(** No well-formed text ends inside a multi-byte character. *)
Lemma valid_not_open_ended (n : nat) :
  forall s,
    (String.length s <= n)%nat -> Utf8.valid s = true -> ends_open s = false.
Proof.
  induction n as [|n IH]; intros [|a s1] Hlen; try done.
  { simpl in Hlen. lia. }
  rewrite valid_cons, ends_open_cons. simpl in Hlen.
  destruct (Utf8.byte_in 0 127 a) eqn:Ha.
  { intros Hv. rewrite closed_not_truncated by (apply closes_sequence; by left).
    apply IH; [lia | done]. }
  destruct s1 as [|b s2]; [done|]. rewrite ends_open_cons. simpl in Hlen.
  destruct (Utf8.byte_in 194 223 a) eqn:Ha2.
  { intros [Hb Hv]%andb_true_iff.
    rewrite complete_not_truncated
      by (rewrite (announced_two a Ha2); simpl; lia).
    rewrite closed_not_truncated by (apply closes_sequence; by right).
    apply IH; [lia | done]. }
  destruct s2 as [|c s3]; [done|]. rewrite ends_open_cons. simpl in Hlen.
  destruct (Utf8.byte_in 224 239 a) eqn:Ha3.
  { intros [[Hb Hc]%andb_true_iff Hv]%andb_true_iff.
    assert (Utf8.cont b = true) as Hb'
      by (repeat case_match; try done;
          by eapply byte_in_cont; [| |exact Hb]).
    rewrite complete_not_truncated
      by (rewrite (announced_three a Ha3); simpl; lia).
    rewrite !closed_not_truncated by (apply closes_sequence; by right).
    apply IH; [lia | done]. }
  destruct s3 as [|d s4]; [done|]. rewrite ends_open_cons. simpl in Hlen.
  intros [[[[_ Hb]%andb_true_iff Hc]%andb_true_iff Hd]%andb_true_iff
            Hv]%andb_true_iff.
  assert (Utf8.cont b = true) as Hb'
    by (repeat case_match; try done;
        by eapply byte_in_cont; [| |exact Hb]).
  rewrite complete_not_truncated
    by (pose proof (announced_at_most_four a); simpl; lia).
  rewrite !closed_not_truncated by (apply closes_sequence; by right).
  apply IH; [lia | done].
Qed.

Section OllamaBody.
Context {RT : PyRuntime}.

Lemma ollama_body_chunks (buffer : string) (end_of_body : option exn)
    (rest : list string) :
  forall c,
    Forall (fun chunk => all_ascii chunk = true) (c :: rest) ->
    ollama_body buffer (c :: rest) end_of_body
      = ollama_body buffer [concat_chunks (c :: rest)] end_of_body.
Proof.
  induction rest as [|c2 rest IH]; intros c Hall.
  - simpl concat_chunks. by rewrite append_empty_r.
  - inversion Hall as [|? ? Hc Hrest]; subst.
    inversion Hrest as [|? ? Hc2 Hrest']; subst.
    assert (all_ascii (c +:+ c2) = true) as Hcc2
      by (by rewrite all_ascii_app, Hc, Hc2).
    rewrite ollama_body_merge by (by apply all_ascii_valid).
    rewrite IH by (by constructor).
    simpl concat_chunks. by rewrite append_assoc.
Qed.

(** X7. However a body of 7-bit characters is cut into chunks, the adapter
    yields what it yields for the body delivered in one piece, starting from
    any buffer and with any end of the body. *)
Theorem ollama_events_independent_of_chunking (buffer : string)
    (chunks : list string) (end_of_body : option exn) :
  chunks <> [] ->
  Forall (fun chunk => all_ascii chunk = true) chunks ->
  ollama_body buffer chunks end_of_body
    = ollama_body buffer [concat_chunks chunks] end_of_body.
Proof.
  intros Hne Hall. destruct chunks as [|c rest]; [done|].
  by apply ollama_body_chunks.
Qed.

(** X8. Each chunk is decoded on its own: a chunk that ends inside a
    multi-byte character (after its first byte, or after any number of its
    bytes short of the last) raises [UnicodeDecodeError] at once, before any
    of its lines is read, whatever the following chunks bring. *)
Theorem chunk_cut_inside_character_raises (buffer chunk : string)
    (rest : list string) (end_of_body : option exn) :
  ends_open chunk = true ->
  ollama_body buffer (chunk :: rest) end_of_body = raised UnicodeDecodeError.
Proof.
  intros Hopen. rewrite ollama_body_cons. unfold Utf8.decode.
  destruct (Utf8.valid chunk) eqn:Hvalid; [|done].
  by rewrite (valid_not_open_ended _ chunk (le_n _) Hvalid) in Hopen.
Qed.

Lemma drain_consumes_lines (n : nat) :
  forall buffer evs rest,
    (String.length buffer <= n)%nat ->
    drain buffer = (evs, Ok rest) ->
    exists consumed,
      buffer = consumed +:+ rest
      /\ (consumed = EmptyString \/ exists head, consumed = head +:+ nl).
Proof.
  induction n as [|n IH]; intros buffer evs rest Hlen; rewrite drain_unfold.
  - destruct buffer; [|simpl in Hlen; lia].
    intros [= _ <-]. exists EmptyString. by split; [|left].
  - destruct (split_newline buffer) as [[line buffer']|] eqn:Hsplit.
    + pose proof (split_newline_length _ _ _ Hsplit) as Hshorter.
      apply split_newline_spec in Hsplit as [-> _].
      destruct (process_completion line); [|done].
      destruct (drain buffer') as [evs' r] eqn:Hdrain.
      intros [= _ ->].
      destruct (IH buffer' evs' rest) as (consumed & -> & Hends); [lia | done |].
      exists (line +:+ nl +:+ consumed). split; [by rewrite !append_assoc|].
      right. destruct Hends as [-> | [head ->]].
      * exists line. by rewrite append_empty_r.
      * exists (line +:+ nl +:+ head). by rewrite !append_assoc.
    + intros [= _ <-]. exists EmptyString. by split; [|left].
Qed.

(** X9. The loop over the lines of the buffer runs until no newline is left:
    what it retains is a partial line, and what it has consumed is empty or
    ends with a newline. *)
Theorem drain_retains_partial_line (buffer : string) (evs : list event)
    (rest : string) :
  drain buffer = (evs, Ok rest) ->
  split_newline rest = None
  /\ exists consumed,
       buffer = consumed +:+ rest
       /\ (consumed = EmptyString \/ exists head, consumed = head +:+ nl).
Proof.
  intros Hdrain. split.
  - by apply (drain_leaves_no_newline _ buffer evs rest (le_n _)).
  - by apply (drain_consumes_lines _ buffer evs rest (le_n _)).
Qed.

End OllamaBody.

(** X7 for the two lines cut into three chunks. *)
Lemma ollama_events_independent_of_chunking_witness :
  ollama_body (RT := reference_runtime) EmptyString
    [ json_text "{'message':{'con"; json_text "tent':'Hi'}}" +:+ nl;
      line_there +:+ nl ]
    None
  = Stream [(JStr "Hi", None); (JStr " there", None)] None.
Proof.
  refine (eq_trans
            (ollama_events_independent_of_chunking (RT := reference_runtime)
               EmptyString
               [ json_text "{'message':{'con"; json_text "tent':'Hi'}}" +:+ nl;
                 line_there +:+ nl ]
               None _ _) _).
  - discriminate.
  - repeat constructor.
  - vm_compute. reflexivity.
Defined.

(** X8 for a line cut after the second of the three bytes of a character;
    in one piece the line is read. *)
Lemma chunk_cut_inside_character_raises_witness :
  ollama_body (RT := reference_runtime) EmptyString [euro_head; euro_tail] None
    = raised UnicodeDecodeError
  /\ items (ollama_body (RT := reference_runtime) EmptyString
              [euro_head +:+ euro_tail] None)
     = [(JStr (String "226" (String "130" (String "172" EmptyString))), None)].
Proof.
  split.
  - apply (chunk_cut_inside_character_raises (RT := reference_runtime)).
    vm_compute. reflexivity.
  - vm_compute. reflexivity.
Defined.

(** X9 for a buffer of one complete line and the beginning of the next. *)
Lemma drain_retains_partial_line_witness :
  split_newline (json_text "{'message':{'cont") = None
  /\ exists consumed,
       line_hi +:+ nl +:+ json_text "{'message':{'cont"
         = consumed +:+ json_text "{'message':{'cont"
       /\ (consumed = EmptyString \/ exists head, consumed = head +:+ nl).
Proof.
  apply (drain_retains_partial_line (RT := reference_runtime)
           (line_hi +:+ nl +:+ json_text "{'message':{'cont")
           [(JStr "Hi", None)]).
  vm_compute. reflexivity.
Defined.

(** ** The accumulator *)

Lemma buffer_get_append (d : tool_buffers) (k k' : Z) (s : string) :
  buffer_get (buffer_append d k s) k' =
    if k =? k' then buffer_get d k' +:+ s else buffer_get d k'.
Proof.
  induction d as [|[k0 v0] d IH]; simpl.
  - by destruct (k =? k').
  - destruct (Z.eqb_spec k0 k) as [->|Hne]; simpl.
    + by destruct (k =? k').
    + rewrite IH. destruct (Z.eqb_spec k0 k') as [->|Hne']; [|done].
      by destruct (Z.eqb_spec k k').
Qed.

Lemma buffer_append_keys (d : tool_buffers) (k : Z) (s : string) :
  map fst (buffer_append d k s) =
    if decide (k ∈ map fst d) then map fst d else map fst d ++ [k].
Proof.
  induction d as [|[k0 v0] d IH]; simpl; [done|].
  destruct (Z.eqb_spec k0 k) as [->|Hne]; simpl.
  - rewrite decide_True; [done | by left].
  - rewrite IH. destruct (decide (k ∈ map fst d)) as [Hin|Hout].
    + rewrite decide_True; [done | by right].
    + rewrite decide_False; [done|]. by intros [->|?]%elem_of_cons.
Qed.

Lemma buffer_append_NoDup (d : tool_buffers) (k : Z) (s : string) :
  NoDup (map fst d) -> NoDup (map fst (buffer_append d k s)).
Proof.
  intros Hd. rewrite buffer_append_keys. case_decide as Hin; [done|].
  apply NoDup_app. split; [done|]. split; [|apply NoDup_singleton].
  by intros x Hx ->%list_elem_of_singleton.
Qed.

Section AccumulatorInvariants.
Context {RT : PyRuntime}.

Lemma iterate_step_buffers (st st' : snapshot) (ev : event) (tr : tool_buffers) :
  iterate_step st ev = (tr, Ok st') ->
  tool_responses st' =
    match ev.2 with
    | Some k => buffer_append (tool_responses st) k (delta_text ev.1)
    | None => tool_responses st
    end.
Proof.
  destruct ev as [[] [slot|]]; simpl; try done.
  - destruct (json_loads _) as [loaded|[]]; simpl;
      try destruct (dict_ior _ _); simpl; intros [= _ <-]; done.
  - by intros [= _ <-].
Qed.

Lemma concat_deltas_app (a b : list event) :
  concat_deltas (a ++ b) = concat_deltas a +:+ concat_deltas b.
Proof.
  induction a as [|ev a IH]; simpl; [done|]. by rewrite IH, append_assoc.
Qed.

(** What the [i]-th snapshot holds, for a run started in any state. *)
Lemma iterate_loop_snapshot (events : list event) (end_of_events : option exn) :
  forall st i s,
    items (yielded (iterate_loop st events end_of_events)) !! i = Some s ->
    output s = output st +:+ concat_deltas (take (S i) events)
    /\ (forall k,
          buffer_get (tool_responses s) k =
            buffer_get (tool_responses st) k
              +:+ concat_deltas (slot_events k (take (S i) events)))
    /\ (NoDup (map fst (tool_responses st)) -> NoDup (map fst (tool_responses s))).
Proof.
  induction events as [|ev rest IH]; intros st i s; simpl; [done|].
  destruct (iterate_step st ev) as [tr [st'|e]] eqn:Hstep; simpl; [|done].
  pose proof (iterate_step_output _ _ _ _ Hstep) as Hout.
  pose proof (iterate_step_buffers _ _ _ _ Hstep) as Hbuf.
  assert (Hget : forall k,
    buffer_get (tool_responses st') k =
      buffer_get (tool_responses st) k +:+ concat_deltas (slot_events k [ev])).
  { intros k. rewrite Hbuf. unfold slot_events. rewrite filter_cons, filter_nil.
    destruct ev as [delta [slot|]]; simpl.
    - rewrite buffer_get_append. destruct (Z.eqb_spec slot k) as [->|Hne].
      + rewrite decide_True by done. simpl. by rewrite append_empty_r.
      + rewrite decide_False by congruence. simpl. by rewrite append_empty_r.
    - by rewrite append_empty_r. }
  assert (Hnodup : NoDup (map fst (tool_responses st)) ->
                   NoDup (map fst (tool_responses st'))).
  { rewrite Hbuf. destruct (ev.2); [apply buffer_append_NoDup | done]. }
  destruct i as [|i]; simpl.
  - intros [= <-]. rewrite take_0. split; [|split; [exact Hget | exact Hnodup]].
    rewrite Hout. simpl. by rewrite append_empty_r.
  - intros Hs. destruct (IH st' i s Hs) as (Ho & Hb & Hn).
    split; [|split].
    + rewrite Ho, Hout, append_assoc. done.
    + intros k. rewrite Hb, Hget, append_assoc. f_equal.
      change (ev :: take (S i) rest) with ([ev] ++ take (S i) rest).
      unfold slot_events. by rewrite filter_app, concat_deltas_app.
    + intros Hst. apply Hn, Hnodup, Hst.
Qed.

(** X10. The output of every snapshot is the concatenation, in delivery
    order, of the deltas received so far, and never more snapshots are
    yielded than events were received. *)
Theorem outputs_are_running_concatenations (events : list event)
    (end_of_events : option exn) :
  (forall i s,
      items (yielded (iterate_invoke_llm (Stream events end_of_events))) !! i = Some s ->
      output s = concat_deltas (take (S i) events))
  /\ (length (items (yielded (iterate_invoke_llm (Stream events end_of_events))))
      <= length events)%nat.
Proof.
  split.
  - intros i s Hs.
    by destruct (iterate_loop_snapshot events end_of_events fresh_state i s Hs)
      as [-> _].
  - unfold iterate_invoke_llm. simpl. generalize fresh_state.
    induction events as [|ev rest IH]; intros st; simpl; [done|].
    destruct (iterate_step st ev) as [tr [st'|e]]; simpl; [|lia].
    specialize (IH st'). lia.
Qed.

(** X11. In every snapshot the buffer of a tool slot is the concatenation,
    in delivery order, of the deltas received for that slot (empty for a slot
    that received none), and no slot has two buffers. *)
Theorem tool_buffers_collect_their_slot (events : list event)
    (end_of_events : option exn) (i : nat) (s : snapshot) :
  items (yielded (iterate_invoke_llm (Stream events end_of_events))) !! i = Some s ->
  (forall k,
      buffer_get (tool_responses s) k
        = concat_deltas (slot_events k (take (S i) events)))
  /\ NoDup (map fst (tool_responses s)).
Proof.
  intros Hs.
  destruct (iterate_loop_snapshot events end_of_events fresh_state i s Hs)
    as (_ & Hb & Hn).
  split; [intros k; by rewrite Hb | apply Hn; constructor].
Qed.

Lemma iterate_loop_plain (events : list event) (end_of_events : option exn) :
  Forall (fun ev => ev.2 = None) events ->
  forallb is_text events = true ->
  forall text,
    iterate_loop (text_snapshot text) events end_of_events =
      {| yielded := Stream (map text_snapshot (running_texts text events))
                           end_of_events;
         final_tool_responses := [] |}.
Proof.
  induction 1 as [|[delta slot] rest Hev _ IH]; intros Htext text; simpl; [done|].
  simpl in Hev, Htext. subst slot.
  apply andb_true_iff in Htext as [Hdelta Hrest].
  destruct delta as [| | | |delta| |]; try done. simpl.
  change {| output := text +:+ delta; tool_responses := []; partial_data := [] |}
    with (text_snapshot (text +:+ delta)).
  by rewrite (IH Hrest).
Qed.

(** A delta that is not a [str] ends the accumulation with [TypeError]. *)
Lemma iterate_step_non_text (st : snapshot) (bad : event) :
  is_text bad = false ->
  iterate_step st bad = (tool_responses st, Raise TypeError).
Proof. by destruct bad as [[] slot]. Qed.

Lemma iterate_loop_plain_until (before : list event) (bad : event)
    (after : list event) (end_of_events : option exn) :
  Forall (fun ev => ev.2 = None) before ->
  forallb is_text before = true ->
  is_text bad = false ->
  forall text,
    iterate_loop (text_snapshot text) (before ++ bad :: after) end_of_events =
      {| yielded := Stream (map text_snapshot (running_texts text before))
                           (Some TypeError);
         final_tool_responses := [] |}.
Proof.
  intros Hplain Htext Hbad.
  induction Hplain as [|[delta slot] rest Hev _ IH]; intros text; simpl.
  - by rewrite (iterate_step_non_text _ _ Hbad).
  - simpl in Hev, Htext. subst slot.
    apply andb_true_iff in Htext as [Hdelta Hrest].
    destruct delta as [| | | |delta| |]; try done. simpl.
    change {| output := text +:+ delta; tool_responses := []; partial_data := [] |}
      with (text_snapshot (text +:+ delta)).
    by rewrite (IH Hrest).
Qed.

(** X12. For a stream of events without tool slot: when every delta is a
    string, one snapshot is yielded per event, holding the text so far, no
    tool buffer and no partial data, and the run ends the way the stream
    ended; at the first delta that is not a string the accumulator raises
    [TypeError], after the snapshots of the events before it, and takes in
    nothing of what follows. *)
Theorem plain_text_is_accumulated_until_non_string (events : list event)
    (end_of_events : option exn) :
  Forall (fun ev => ev.2 = None) events ->
  (forallb is_text events = true ->
   iterate_invoke_llm (Stream events end_of_events) =
     {| yielded := Stream (map text_snapshot (running_texts EmptyString events))
                          end_of_events;
        final_tool_responses := [] |})
  /\ (forall before bad after,
      events = before ++ bad :: after ->
      forallb is_text before = true ->
      is_text bad = false ->
      iterate_invoke_llm (Stream events end_of_events) =
        {| yielded := Stream (map text_snapshot (running_texts EmptyString before))
                             (Some TypeError);
           final_tool_responses := [] |}).
Proof.
  intros Hplain. split.
  - intros Htext. by apply (iterate_loop_plain events end_of_events Hplain Htext).
  - intros before bad after -> Htext Hbad.
    apply Forall_app in Hplain as [Hbefore _].
    by apply (iterate_loop_plain_until before bad after end_of_events).
Qed.

Lemma iterate_invoke_llm_plain (events : list event)
    (end_of_events : option exn) :
  Forall (fun ev => ev.2 = None) events ->
  forallb is_text events = true ->
  iterate_invoke_llm (Stream events end_of_events) =
    {| yielded := Stream (map text_snapshot (running_texts EmptyString events))
                         end_of_events;
       final_tool_responses := [] |}.
Proof.
  intros Hplain Htext.
  by apply (iterate_loop_plain events end_of_events Hplain Htext).
Qed.

Lemma iterate_loop_slotted (events : list event) (end_of_events : option exn) :
  Forall (fun ev => is_Some ev.2) events ->
  forall st,
    Forall (fun s => tool_responses s <> [])
      (items (yielded (iterate_loop st events end_of_events))).
Proof.
  induction 1 as [|ev rest Hev _ IH]; intros st; simpl; [constructor|].
  destruct (iterate_step st ev) as [tr [st'|e]] eqn:Hstep; simpl; [|constructor].
  constructor; [|apply IH].
  rewrite (iterate_step_buffers _ _ _ _ Hstep).
  destruct Hev as [k ->]. by destruct (tool_responses st) as [|[k0 v0] d]; simpl;
    [|destruct (k0 =? k)].
Qed.

End AccumulatorInvariants.

(** X11 on fragments arriving for two slots in turn. *)
Lemma tool_buffers_collect_their_slot_witness :
  (forall k,
      buffer_get [(0, "{}"); (1, "[1")] k
        = concat_deltas
            (slot_events k (take 3 [(JStr "{", Some 0); (JStr "[1", Some 1); (JStr "}", Some 0);
                                    (JStr "]", Some 1)])))
  /\ NoDup (map fst [(0, "{}"); (1, "[1")]).
Proof.
  split.
  - refine (proj1 (tool_buffers_collect_their_slot (RT := reference_runtime)
                     [(JStr "{", Some 0); (JStr "[1", Some 1); (JStr "}", Some 0); (JStr "]", Some 1)]
                     None 2
                     {| output := "{[1}";
                        tool_responses := [(0, "{}"); (1, "[1")];
                        partial_data := [] |} _)).
    vm_compute. reflexivity.
  - apply NoDup_cons. split; [by intros ?%list_elem_of_singleton|].
    apply NoDup_singleton.
Defined.

(** X12 on two text deltas followed by a number. *)
Lemma plain_text_is_accumulated_until_non_string_witness :
  iterate_invoke_llm (RT := reference_runtime)
    (Stream [(JStr "ab", None); (JStr "cd", None); (JInt 7, None)] None)
  = {| yielded := Stream [text_snapshot "ab"; text_snapshot "abcd"]
                         (Some TypeError);
       final_tool_responses := [] |}.
Proof.
  refine (proj2 (plain_text_is_accumulated_until_non_string
                   (RT := reference_runtime)
                   [(JStr "ab", None); (JStr "cd", None); (JInt 7, None)] None _)
            [(JStr "ab", None); (JStr "cd", None)] (JInt 7, None) []
            eq_refl eq_refl eq_refl).
  by repeat constructor.
Defined.

(** ** The generic adapter and the accumulator *)

Lemma litellm_loop_plain (completions : list model_response)
    (end_of_stream : option exn) :
  forall tool_index,
    Forall (fun ev => ev.2 = tool_index)
      (items (litellm_loop false tool_index completions end_of_stream)).
Proof.
  induction completions as [|c cs IH]; intros tool_index; simpl; [constructor|].
  unfold litellm_step. destruct (choices c) as [|d ds]; simpl; [constructor|].
  destruct (delta_content d); simpl; [|constructor].
  constructor; [done | apply IH].
Qed.

Lemma litellm_loop_slotted (completions : list model_response)
    (end_of_stream : option exn) :
  forall tool_index,
    Forall (fun ev => is_Some ev.2)
      (items (litellm_loop true tool_index completions end_of_stream)).
Proof.
  induction completions as [|c cs IH]; intros tool_index; simpl; [constructor|].
  unfold litellm_step. destruct (choices c) as [|d ds]; simpl; [constructor|].
  destruct (tool_calls d) as [[|tc tcs]|]; simpl; try constructor.
  destruct (arguments tc); simpl; [|constructor].
  constructor; [by eexists | apply IH].
Qed.

(** The deltas of the generic adapter are the strings of the SDK. *)
Lemma litellm_loop_text (tool_mode : bool) (completions : list model_response)
    (end_of_stream : option exn) :
  forall tool_index,
    forallb is_text
      (items (litellm_loop tool_mode tool_index completions end_of_stream)) = true.
Proof.
  induction completions as [|c cs IH]; intros tool_index; simpl; [done|].
  destruct (litellm_step tool_mode tool_index c) as [[[]|[ev idx]]|e] eqn:Hstep;
    simpl; try done.
  rewrite IH, andb_true_r.
  unfold litellm_step in Hstep. destruct (choices c) as [|d ds]; [done|].
  destruct tool_mode; simpl in Hstep.
  - destruct (tool_calls d) as [[|tc tcs]|]; simpl in Hstep; try done.
    destruct (arguments tc); simpl in Hstep; [|done]. by injection Hstep as <- _.
  - destruct (delta_content d); simpl in Hstep; [|done]. by injection Hstep as <- _.
Qed.

Lemma litellm_step_ill_formed (tool_mode : bool) (tool_index : option Z)
    (c : model_response) :
  well_formed tool_mode c = false ->
  litellm_step tool_mode tool_index c = Raise IndexError.
Proof.
  unfold well_formed, litellm_step.
  destruct (choices c) as [|d ds]; [done|].
  destruct tool_mode; [|done]. by destruct (tool_calls d) as [[|tc tcs]|].
Qed.

Section AdapterAndAccumulator.
Context {RT : PyRuntime} {PD : Pydantic}.

(** X13. Without a schema, and for a model whose identifier contains [gpt],
    the generic adapter yields no event with a tool slot; the accumulator
    then never raises, keeps no tool buffer and no partial data, and every
    incremental output has [data = None]. *)
Theorem no_structured_data_without_tool_calling (model_config : ModelConfig)
    (schema : option JsonSchemaObject) (completions : list model_response)
    (end_of_stream : option exn) :
  schema = None \/ use_tool_calling model_config = false ->
  let llm := invoke_litellm model_config schema completions end_of_stream in
  Forall (fun ev => ev.2 = None) (items llm)
  /\ ending (yielded (iterate_invoke_llm llm)) = ending llm
  /\ final_tool_responses (iterate_invoke_llm llm) = []
  /\ Forall (fun s => tool_responses s = [] /\ partial_data s = []
                      /\ data (emit s) = JNull)
       (items (yielded (iterate_invoke_llm llm))).
Proof.
  intros Hmode llm.
  assert (Hplain : Forall (fun ev => ev.2 = None) (items llm)).
  { subst llm. unfold invoke_litellm.
    assert (match schema with
            | Some _ => use_tool_calling model_config
            | None => false
            end = false) as ->
      by (destruct Hmode as [-> | ->]; [done | by destruct schema]).
    apply litellm_loop_plain. }
  split; [exact Hplain|].
  assert (Htext : forallb is_text (items llm) = true)
    by apply litellm_loop_text.
  destruct llm as [events end_of_events]. simpl in Hplain, Htext.
  rewrite (iterate_invoke_llm_plain events end_of_events Hplain Htext).
  repeat split. apply Forall_map, Forall_forall. by intros text _.
Qed.

(** X14. With a schema and a model whose identifier does not contain [gpt],
    every event of the generic adapter carries a tool slot, so every
    snapshot of the accumulator holds at least one tool buffer: once an
    event has arrived, finalization reads the tool buffers and not the
    text. *)
Theorem tool_calling_fills_tool_buffers (model_config : ModelConfig)
    (schema : JsonSchemaObject) (completions : list model_response)
    (end_of_stream : option exn) :
  use_tool_calling model_config = true ->
  let llm := invoke_litellm model_config (Some schema) completions end_of_stream in
  Forall (fun ev => is_Some ev.2) (items llm)
  /\ Forall (fun s => tool_responses s <> [])
       (items (yielded (iterate_invoke_llm llm))).
Proof.
  intros Hmode llm.
  assert (Hslots : Forall (fun ev => is_Some ev.2) (items llm)).
  { subst llm. unfold invoke_litellm. rewrite Hmode. apply litellm_loop_slotted. }
  split; [exact Hslots|]. by apply iterate_loop_slotted.
Qed.

(** X15. A completion without choices, or in tool-calling mode with an empty
    list of tool calls, raises [IndexError]: the events of the completions
    before it have been yielded, nothing after it is read. *)
Theorem ill_formed_completion_raises_IndexError (model_config : ModelConfig)
    (schema : option JsonSchemaObject)
    (before : list model_response) (bad : model_response)
    (after : list model_response) (end_of_stream : option exn) :
  let tool_mode := match schema with
                   | Some _ => use_tool_calling model_config
                   | None => false
                   end in
  forallb (well_formed tool_mode) before = true ->
  all_present tool_mode before = true ->
  well_formed tool_mode bad = false ->
  invoke_litellm model_config schema (before ++ bad :: after) end_of_stream
    = Stream (until_absent tool_mode None before) (Some IndexError).
Proof.
  intros tool_mode Hwf Hpresent Hbad. unfold invoke_litellm. fold tool_mode.
  generalize (@None Z) as tool_index.
  induction before as [|c cs IH]; intros tool_index; simpl.
  - by rewrite (litellm_step_ill_formed _ _ _ Hbad).
  - simpl in Hwf, Hpresent.
    apply andb_true_iff in Hwf as [Hc Hcs].
    apply andb_true_iff in Hpresent as [Hp Hps].
    destruct (selected_payload tool_mode c) as [s|] eqn:Hsel; [|done].
    by rewrite (litellm_step_present _ _ _ _ Hc Hsel), (IH Hcs Hps).
Qed.

End AdapterAndAccumulator.

(** X13 for [gpt-4o] with a schema: the text of an object arrives in two
    deltas. *)
Lemma no_structured_data_without_tool_calling_witness :
  Forall (fun s => tool_responses s = [] /\ partial_data s = []
                   /\ data (emit s) = JNull)
    (items (yielded (iterate_invoke_llm (RT := reference_runtime)
       (invoke_litellm (PD := permissive_pydantic) (config_for "gpt-4o") (Some tt)
          [ {| choices := [ {| delta_content := Some "{"; tool_calls := None |} ] |};
            {| choices := [ {| delta_content := Some "}"; tool_calls := None |} ] |} ]
          None)))).
Proof.
  refine (proj2 (proj2 (proj2
            (no_structured_data_without_tool_calling (RT := reference_runtime)
               (PD := permissive_pydantic) (config_for "gpt-4o") (Some tt)
               [ {| choices := [ {| delta_content := Some "{"; tool_calls := None |} ] |};
                 {| choices := [ {| delta_content := Some "}"; tool_calls := None |} ] |} ]
               None _)))).
  right. reflexivity.
Defined.

(** X14 for [claude-3-haiku] with a schema. *)
Lemma tool_calling_fills_tool_buffers_witness :
  Forall (fun s => tool_responses s <> [])
    (items (yielded (iterate_invoke_llm (RT := reference_runtime)
       (invoke_litellm (PD := permissive_pydantic) (config_for "claude-3-haiku")
          (Some tt)
          [ {| choices := [tool_only_delta] |}; {| choices := [tool_only_delta] |} ]
          None)))).
Proof.
  refine (proj2 (tool_calling_fills_tool_buffers (RT := reference_runtime)
                   (PD := permissive_pydantic) (config_for "claude-3-haiku") tt
                   [ {| choices := [tool_only_delta] |};
                     {| choices := [tool_only_delta] |} ]
                   None _)).
  reflexivity.
Defined.

(** X15 for a tool-call fragment followed by a completion without
    choices. *)
Lemma ill_formed_completion_raises_IndexError_witness :
  invoke_litellm (PD := permissive_pydantic) (config_for "claude-3-haiku") (Some tt)
    [ {| choices := [tool_only_delta] |}; {| choices := [] |};
      {| choices := [tool_only_delta] |} ]
    None
  = Stream [(JStr "{}", Some 0)] (Some IndexError).
Proof.
  exact (ill_formed_completion_raises_IndexError (PD := permissive_pydantic)
           (config_for "claude-3-haiku") (Some tt)
           [ {| choices := [tool_only_delta] |} ] {| choices := [] |}
           [ {| choices := [tool_only_delta] |} ] None eq_refl eq_refl eq_refl).
Defined.

(** ** Finalization and the retry loop *)

Section RunProperties.
Context {RT : PyRuntime} {PD : Pydantic}.

Lemma parse_structured_response_sound (tool_responses : tool_buffers)
    (output : string) (schema : OutputSchema) (data : json) :
  parse_structured_response tool_responses output schema = Ok data ->
  data <> JNull ->
  (exists model,
      construct_model_from_schema schema = Some model
      /\ model_validate model data = true)
  /\ (tool_responses = [] -> json_loads output = Ok data)
  /\ (tool_responses <> [] ->
      exists merged, data = JObj merged
        /\ merge_tool_responses [] (map snd tool_responses) = Ok merged).
Proof.
  unfold parse_structured_response. intros Hparse Hdata.
  assert (Hcases : exists candidate,
    (match tool_responses with
     | [] => json_loads output = Ok candidate
     | _ :: _ => exists merged, candidate = JObj merged
                 /\ merge_tool_responses [] (map snd tool_responses) = Ok merged
     end)
    /\ match construct_model_from_schema schema with
       | Some model => (if model_validate model candidate then Ok candidate
                        else Ok JNull) = Ok data
       | None => Ok JNull = Ok data
       end).
  { destruct tool_responses as [|b bs].
    - destruct (json_loads output) as [v|[]]; simpl in Hparse; try done;
        try (by injection Hparse as <-).
      exists v. split; [done|].
      by destruct (construct_model_from_schema schema).
    - destruct (merge_tool_responses [] (map snd (b :: bs))) as [d|[]];
        simpl in Hparse; try done; try (by injection Hparse as <-).
      exists (JObj d). split; [by exists d|].
      by destruct (construct_model_from_schema schema). }
  destruct Hcases as (candidate & Hcand & Hvalid).
  destruct (construct_model_from_schema schema) as [model|];
    [|by injection Hvalid as <-].
  destruct (model_validate model candidate) eqn:Hok;
    [|by injection Hvalid as <-].
  injection Hvalid as <-. split; [by exists model|].
  by destruct tool_responses.
Qed.

(** X16. Whatever [parse_structured_response] returns other than [None] has
    been accepted by the model compiled from the schema; it is the decoded
    text when no tool buffer exists, and an object merged from the tool
    buffers otherwise. *)
Theorem returned_data_is_validated (tool_responses : tool_buffers)
    (output : string) (schema : OutputSchema) (data : json) :
  parse_structured_response tool_responses output schema = Ok data ->
  data <> JNull ->
  (exists model,
      construct_model_from_schema schema = Some model
      /\ model_validate model data = true)
  /\ (tool_responses = [] -> json_loads output = Ok data)
  /\ (tool_responses <> [] ->
      exists merged, data = JObj merged
        /\ merge_tool_responses [] (map snd tool_responses) = Ok merged).
Proof. apply parse_structured_response_sound. Qed.

(** Every output of the retry loop is the emission of a snapshot, and all
    of them are kept: first those of the attempts that failed with a retry
    error, then those of the attempt that settled the loop. *)
Lemma retrying_settles (failed : list (stream event)) (settled : stream event)
    (later : list (stream event)) :
  Forall fails_transiently failed ->
  settles settled ->
  forall vars,
    exists vars',
      retrying vars (failed ++ settled :: later)
        = (concat (map attempt_emissions (failed ++ [settled])), vars',
           settled_end settled).
Proof.
  intros Hfailed Hsettled. unfold settles, settled_end in *.
  induction Hfailed as [|llm failed (e & He & Hretry) _ IH]; intros vars; simpl.
  - rewrite app_nil_r. fold (attempt_emissions settled).
    destruct (ending (yielded (iterate_invoke_llm settled))) as [e|];
      [rewrite Hsettled|]; by eexists.
  - rewrite He, Hretry.
    destruct (IH (after_attempt vars (iterate_invoke_llm llm))) as (vars' & ->).
    by eexists.
Qed.

(** X17. The retry loop retracts nothing and stops at the first attempt that
    does not fail with a retry error: it has then yielded the outputs of
    every attempt so far, in order, it ends as that attempt ended (success,
    or the exception raised), and no later attempt is made.  While every
    attempt fails with a retry error the loop goes on. *)
Theorem retry_loop_keeps_outputs_and_stops (failed : list (stream event))
    (vars : run_vars) :
  Forall fails_transiently failed ->
  (forall settled later,
      settles settled ->
      retry_outputs vars (failed ++ settled :: later)
        = concat (map attempt_emissions (failed ++ [settled]))
      /\ (retrying vars (failed ++ settled :: later)).2 = settled_end settled)
  /\ retry_outputs vars failed = concat (map attempt_emissions failed)
  /\ (retrying vars failed).2 = StillRetrying.
Proof.
  intros Hfailed. split.
  - intros settled later Hsettled. unfold retry_outputs.
    destruct (retrying_settles failed settled later Hfailed Hsettled vars)
      as (vars' & ->). done.
  - unfold retry_outputs. revert vars.
    induction Hfailed as [|llm failed (e & He & Hretry) _ IH]; intros vars; simpl;
      [done|].
    rewrite He, Hretry.
    destruct (IH (after_attempt vars (iterate_invoke_llm llm))) as [Houts Hend].
    destruct (retrying _ failed) as [[outs vars'] r]. simpl in *.
    by rewrite Houts, Hend.
Qed.

End RunProperties.

Section RunOutcome.
Context {RT : PyRuntime} {PD : Pydantic} {LL : Litellm}.

Lemma finish_completed (inputs : Inputs) (messages : list message)
    (outs : list Outputs) (vars : run_vars) (s : OutputSchema) :
  output_schema inputs = Some s ->
  run_ending (finish inputs messages outs vars) = Completed ->
  exists data,
    parse_structured_response (run_tool_responses vars) (run_output vars) s = Ok data
    /\ data <> JNull
    /\ finish inputs messages outs vars
       = {| emitted := outs ++ [ {| result_ := run_output vars;
                                    response := run_output vars;
                                    data := data |} ];
            run_ending := Completed;
            final_vars := vars |}.
Proof.
  intros Hschema. unfold finish. rewrite Hschema.
  destruct (estimate_cost_handled _ _ _); [|done].
  destruct (parse_structured_response _ _ s) as [[]|e]; try done;
    intros _; by eexists.
Qed.

Lemma run_emitted (llm : provider) (inputs : Inputs) :
  emitted (run llm inputs) = []
  \/ exists messages schema outs vars r,
       build_messages (prompt_ inputs) (resolved_model inputs) (quote_style inputs)
         = Ok messages
       /\ resolve_schema (output_schema inputs) = Ok schema
       /\ retrying run_vars_init (llm messages (resolved_model inputs) schema)
          = (outs, vars, r)
       /\ (run llm inputs = {| emitted := outs; run_ending := Retrying;
                               final_vars := vars |}
           \/ (exists e, run llm inputs = {| emitted := outs; run_ending := Raised e;
                                             final_vars := vars |})
           \/ (r = Succeeded /\ run llm inputs = finish inputs messages outs vars)).
Proof.
  unfold run.
  destruct (build_messages _ _ _) as [messages|e]; [|by left].
  destruct (resolve_schema _) as [schema|e]; [|by left].
  destruct (retrying _ _) as [[outs vars] r] eqn:Hretry.
  right. exists messages, schema, outs, vars, r.
  split; [done|]. split; [done|]. split; [done|].
  destruct r; [by right; right | right; left; by eexists | by left].
Qed.

(** X18. When [run] completes for a request with an output schema, the last
    output it yields carries the final text and data that are not [None] and
    that the model compiled from the schema accepted. *)
Theorem completed_run_ends_with_validated_data (llm : provider)
    (inputs : Inputs) (s : OutputSchema) :
  output_schema inputs = Some s ->
  run_ending (run llm inputs) = Completed ->
  exists outs data model,
    emitted (run llm inputs)
      = outs ++ [ {| result_ := run_output (final_vars (run llm inputs));
                     response := run_output (final_vars (run llm inputs));
                     data := data |} ]
    /\ data <> JNull
    /\ construct_model_from_schema s = Some model
    /\ model_validate model data = true.
Proof.
  intros Hschema Hcompleted.
  assert (exists messages outs vars, run llm inputs = finish inputs messages outs vars)
    as (messages & outs & vars & Hrun).
  { destruct (run_emitted llm inputs) as [Hnone | (m & sc & outs & vars & r & _ & _ & _ & Hrun)].
    - unfold run in *.
      destruct (build_messages _ _ _); [|done].
      destruct (resolve_schema _); [|done].
      destruct (retrying _ _) as [[outs vars] r]. destruct r; try done.
      by eexists _, _, _.
    - destruct Hrun as [Hrun | [[e Hrun] | [_ Hrun]]];
        [by rewrite Hrun in Hcompleted.. | by eexists _, _, _]. }
  rewrite Hrun in Hcompleted |- *.
  destruct (finish_completed inputs messages outs vars s Hschema Hcompleted)
    as (data & Hparse & Hdata & ->).
  destruct (parse_structured_response_sound _ _ _ _ Hparse Hdata)
    as ((model & Hmodel & Hvalid) & _).
  by exists outs, data, model.
Qed.

(** X19. In every output [run] yields, incremental or final, the deprecated
    [result] equals [response]. *)
Theorem result_equals_response (llm : provider) (inputs : Inputs) (o : Outputs) :
  o ∈ emitted (run llm inputs) -> result_ o = response o.
Proof.
  destruct (run_emitted llm inputs)
    as [-> | (m & sc & outs & vars & r & _ & _ & Hretry & Hrun)];
    [by intros ?%elem_of_nil|].
  assert (Houts : o ∈ outs -> result_ o = response o).
  { intros Ho.
    destruct (retry_outputs_are_emissions
                (llm m (resolved_model inputs) sc) run_vars_init o)
      as (a & s & _ & _ & ->); [|done].
    unfold retry_outputs. by rewrite Hretry. }
  destruct Hrun as [-> | [[e ->] | [_ ->]]]; try exact Houts.
  unfold finish. destruct (estimate_cost_handled _ _ _); [|exact Houts].
  destruct (output_schema inputs) as [s|]; [|exact Houts].
  destruct (parse_structured_response _ _ s) as [[]|e]; simpl; try exact Houts;
    (intros [Ho | ->%list_elem_of_singleton]%elem_of_app; [by apply Houts | done]).
Qed.

(** X20. A cost estimate that raises anything but [NotFoundError] ends
    [run] with that exception after a successful retry loop: the incremental
    outputs were yielded, the final structured output is not.  A
    [NotFoundError] is tolerated: without an output schema the run
    completes. *)
Theorem cost_estimate_exception_ends_run (llm : provider) (inputs : Inputs)
    (messages : list message) (schema : option JsonSchemaObject)
    (outs : list Outputs) (vars : run_vars) (e : exn) :
  build_messages (prompt_ inputs) (resolved_model inputs) (quote_style inputs)
    = Ok messages ->
  resolve_schema (output_schema inputs) = Ok schema ->
  retrying run_vars_init (llm messages (resolved_model inputs) schema)
    = (outs, vars, Succeeded) ->
  completion_cost (model (resolved_model inputs)) messages (run_output vars)
    = Raise e ->
  (e <> NotFoundError ->
   run llm inputs
     = {| emitted := outs; run_ending := Raised e; final_vars := vars |})
  /\ (e = NotFoundError ->
      output_schema inputs = None ->
      run llm inputs
        = {| emitted := outs; run_ending := Completed; final_vars := vars |}).
Proof.
  intros Hmessages Hschema Hretry Hcost. unfold run.
  rewrite Hmessages, Hschema, Hretry.
  unfold finish, estimate_cost_handled. rewrite Hcost. split.
  - intros Hne. by destruct e.
  - by intros -> ->.
Qed.

End RunOutcome.


(** X16 at two tool buffers with a colliding key. *)
Lemma returned_data_is_validated_witness :
  (exists model,
      construct_model_from_schema (PD := permissive_pydantic) tt = Some model
      /\ model_validate model (JObj [("a", JInt 1); ("b", JInt 3)]) = true)
  /\ (two_buffers_colliding = [] ->
      @json_loads reference_runtime EmptyString
        = Ok (JObj [("a", JInt 1); ("b", JInt 3)]))
  /\ (two_buffers_colliding <> [] ->
      exists merged, JObj [("a", JInt 1); ("b", JInt 3)] = JObj merged
        /\ merge_tool_responses (RT := reference_runtime) []
             (map snd two_buffers_colliding) = Ok merged).
Proof.
  apply (returned_data_is_validated (RT := reference_runtime)
           (PD := permissive_pydantic) two_buffers_colliding EmptyString tt
           (JObj [("a", JInt 1); ("b", JInt 3)])).
  - vm_compute; reflexivity.
  - discriminate.
Defined.

(** X17 at one attempt that fails with [NotFoundError], a retry error. *)
Lemma retry_loop_keeps_outputs_and_stops_witness :
  (forall settled later, settles (RT := reference_runtime) settled ->
      retry_outputs (RT := reference_runtime) run_vars_init
        ([Stream [(JStr "ab", None)] (Some NotFoundError)] ++ settled :: later)
        = concat (map (attempt_emissions (RT := reference_runtime))
                    ([Stream [(JStr "ab", None)] (Some NotFoundError)] ++ [settled]))
      /\ (retrying (RT := reference_runtime) run_vars_init
            ([Stream [(JStr "ab", None)] (Some NotFoundError)] ++ settled :: later)).2
         = settled_end (RT := reference_runtime) settled)
  /\ retry_outputs (RT := reference_runtime) run_vars_init
       [Stream [(JStr "ab", None)] (Some NotFoundError)]
     = concat (map (attempt_emissions (RT := reference_runtime))
                 [Stream [(JStr "ab", None)] (Some NotFoundError)])
  /\ (retrying (RT := reference_runtime) run_vars_init
        [Stream [(JStr "ab", None)] (Some NotFoundError)]).2 = StillRetrying.
Proof.
  apply (retry_loop_keeps_outputs_and_stops (RT := reference_runtime)
           [Stream [(JStr "ab", None)] (Some NotFoundError)] run_vars_init).
  constructor; [|constructor].
  exists NotFoundError. split; vm_compute; reflexivity.
Defined.

(** X18 at a provider that answers with the text of an object. *)
Lemma completed_run_ends_with_validated_data_witness :
  exists outs data model,
    emitted (run (RT := reference_runtime) (LL := counting_litellm)
               answers_once (inputs_with (Some tt)))
      = outs ++ [ {| result_ := json_text "{'a': 1}";
                     response := json_text "{'a': 1}";
                     data := data |} ]
    /\ data <> JNull
    /\ construct_model_from_schema (PD := permissive_pydantic) tt = Some model
    /\ model_validate model data = true.
Proof.
  apply (completed_run_ends_with_validated_data (RT := reference_runtime)
           (LL := counting_litellm) answers_once (inputs_with (Some tt)) tt).
  - reflexivity.
  - vm_compute; reflexivity.
Defined.

(** X19 at the final output of that run. *)
Lemma result_equals_response_witness :
  result_ {| result_ := json_text "{'a': 1}"; response := json_text "{'a': 1}";
             data := JObj [("a", JInt 1)] |}
  = response {| result_ := json_text "{'a': 1}"; response := json_text "{'a': 1}";
                data := JObj [("a", JInt 1)] |}.
Proof.
  apply (result_equals_response (RT := reference_runtime)
           (LL := counting_litellm) answers_once (inputs_with (Some tt))).
  vm_compute. apply list_elem_of_further, list_elem_of_here.
Defined.

(** X20 at a pricing table whose lookup fails. *)
Lemma cost_estimate_exception_ends_run_witness :
  run (RT := reference_runtime) (LL := broken_pricing)
    answers_once (inputs_with (Some tt))
  = {| emitted := [ {| result_ := json_text "{'a': 1}";
                       response := json_text "{'a': 1}"; data := JNull |} ];
       run_ending := Raised OtherError;
       final_vars := {| run_output := json_text "{'a': 1}";
                        run_tool_responses := [] |} |}.
Proof.
  refine (proj1 (cost_estimate_exception_ends_run (RT := reference_runtime)
                   (LL := broken_pricing) answers_once (inputs_with (Some tt))
                   [ {| msg_role := user; content := "Answer in JSON." |} ]
                   (Some tt) _ _ OtherError _ _ _ _) _).
  - vm_compute; reflexivity.
  - reflexivity.
  - vm_compute; reflexivity.
  - reflexivity.
  - discriminate.
Defined.


(** ** The credential context, variable by variable *)

(** [exit] leaves a variable at the backup the context holds for it. *)
Lemma restore_var_lookup (name : string) (bak : option string) (env : environ) :
  restore_var name bak env !! name = bak.
Proof.
  destruct bak as [v|]; [|apply restore_var_no_backup].
  simpl. apply lookup_insert_eq.
Qed.

Lemma restore_var_lookup_ne (name other : string) (bak : option string)
    (env : environ) :
  name <> other -> restore_var name bak env !! other = env !! other.
Proof.
  intros Hne. unfold restore_var. destruct bak as [v|].
  - by rewrite lookup_insert_ne.
  - case_bool_decide; [by rewrite lookup_delete_ne | done].
Qed.

Section CredentialVariables.
Context {HO : Host}.

Lemma enter_lookup_ne (self : PromptEnvContext) (env : environ) (name : string) :
  name <> "ANTHROPIC_API_KEY" ->
  name <> "GOOGLE_APPLICATION_CREDENTIALS" ->
  (enter self env).1.2 !! name = env !! name.
Proof.
  intros Hkey Hgcp. unfold enter.
  destruct (get_secret "ANTHROPIC_API_KEY");
    destruct (get_secret "GCP_CREDENTIALS_64") as [b64|];
    try destruct (b64decode_ascii b64); simpl;
    by rewrite ?lookup_insert_ne.
Qed.

(** X21. A use of the context that raises nothing leaves each of the two
    variables whose secret is configured at the value it had on entry, or
    unset when it was unset, whatever the singleton holds from earlier
    uses. *)
Theorem configured_variable_is_restored (self : PromptEnvContext) (env : environ) :
  (with_context self env).2 = None ->
  (is_Some (get_secret "ANTHROPIC_API_KEY") ->
   (with_context self env).1.2 !! "ANTHROPIC_API_KEY"
     = env !! "ANTHROPIC_API_KEY")
  /\ (is_Some (get_secret "GCP_CREDENTIALS_64") ->
      (with_context self env).1.2 !! "GOOGLE_APPLICATION_CREDENTIALS"
        = env !! "GOOGLE_APPLICATION_CREDENTIALS").
Proof.
  unfold with_context, enter, exit.
  destruct (get_secret "ANTHROPIC_API_KEY") as [key|];
    destruct (get_secret "GCP_CREDENTIALS_64") as [b64|];
    try destruct (b64decode_ascii b64) as [creds|]; simpl; try done;
    intros _; (split; intros [x Hx]; try discriminate Hx);
    rewrite ?(restore_var_lookup_ne "GOOGLE_APPLICATION_CREDENTIALS"
                "ANTHROPIC_API_KEY") by done;
    rewrite restore_var_lookup; by rewrite ?lookup_insert_ne.
Qed.

(** X22. Entering and leaving the context changes no environment variable
    other than [ANTHROPIC_API_KEY] and [GOOGLE_APPLICATION_CREDENTIALS],
    whatever is configured and whether or not [enter] raises. *)
Theorem context_touches_two_variables_only (self : PromptEnvContext)
    (env : environ) (name : string) :
  name <> "ANTHROPIC_API_KEY" ->
  name <> "GOOGLE_APPLICATION_CREDENTIALS" ->
  (enter self env).1.2 !! name = env !! name
  /\ (exit self env).2 !! name = env !! name
  /\ (with_context self env).1.2 !! name = env !! name.
Proof.
  intros Hkey Hgcp. split; [by apply enter_lookup_ne|].
  assert (Hexit : forall self' env', (exit self' env').2 !! name = env' !! name).
  { intros self' env'. unfold exit. simpl.
    by rewrite !restore_var_lookup_ne. }
  split; [apply Hexit|].
  unfold with_context.
  pose proof (enter_lookup_ne self env name Hkey Hgcp) as Henter.
  destruct (enter self env) as [[self' env'] [e|]]; simpl in *; [done|].
  specialize (Hexit self' env').
  destruct (exit self' env') as [self'' env'']. simpl in *. congruence.
Qed.

(** X23. When the credentials secret does not decode, [enter] raises after
    the API key was injected: the context ends with [ANTHROPIC_API_KEY] at
    the secret's value, its earlier value held only in the backup, no
    temporary file and [GOOGLE_APPLICATION_CREDENTIALS] as it was. *)
Theorem undecodable_credentials_leave_key_injected (self : PromptEnvContext)
    (env : environ) (key b64 : string) :
  get_secret "ANTHROPIC_API_KEY" = Some key ->
  get_secret "GCP_CREDENTIALS_64" = Some b64 ->
  b64decode_ascii b64 = None ->
  with_context self env
  = ({| anthropic_env_var_bak := env !! "ANTHROPIC_API_KEY";
        gcp_env_var_bak := gcp_env_var_bak self;
        file := file self |},
     <["ANTHROPIC_API_KEY" := key]> env,
     Some Base64Error)
  /\ (with_context self env).1.2 !! "ANTHROPIC_API_KEY" = Some key
  /\ (with_context self env).1.2 !! "GOOGLE_APPLICATION_CREDENTIALS"
     = env !! "GOOGLE_APPLICATION_CREDENTIALS".
Proof.
  intros Hkey Hb64 Hcreds. unfold with_context, enter.
  rewrite Hkey, Hb64, Hcreds. simpl.
  split; [done|]. split; [apply lookup_insert_eq | by rewrite lookup_insert_ne].
Qed.

End CredentialVariables.

(** X21 at a process environment with an API key of its own. *)
Lemma configured_variable_is_restored_witness :
  (is_Some (get_secret (Host := both_secrets) "ANTHROPIC_API_KEY") ->
   (with_context (HO := both_secrets) PromptEnvContext_init env_with_key).1.2
     !! "ANTHROPIC_API_KEY" = env_with_key !! "ANTHROPIC_API_KEY")
  /\ (is_Some (get_secret (Host := both_secrets) "GCP_CREDENTIALS_64") ->
      (with_context (HO := both_secrets) PromptEnvContext_init env_with_key).1.2
        !! "GOOGLE_APPLICATION_CREDENTIALS"
        = env_with_key !! "GOOGLE_APPLICATION_CREDENTIALS").
Proof.
  apply (configured_variable_is_restored (HO := both_secrets)
           PromptEnvContext_init env_with_key).
  vm_compute; reflexivity.
Defined.

(** X22 at the search path. *)
Lemma context_touches_two_variables_only_witness :
  (enter (HO := both_secrets) PromptEnvContext_init env_with_key).1.2 !! "PATH"
    = env_with_key !! "PATH"
  /\ (exit PromptEnvContext_init env_with_key).2 !! "PATH" = env_with_key !! "PATH"
  /\ (with_context (HO := both_secrets) PromptEnvContext_init env_with_key).1.2
       !! "PATH" = env_with_key !! "PATH".
Proof.
  apply (context_touches_two_variables_only (HO := both_secrets)
           PromptEnvContext_init env_with_key "PATH"); discriminate.
Defined.

(** X23 at a secret that is not base64. *)
Lemma undecodable_credentials_leave_key_injected_witness :
  with_context (HO := undecodable_credentials) PromptEnvContext_init env_with_key
  = ({| anthropic_env_var_bak := env_with_key !! "ANTHROPIC_API_KEY";
        gcp_env_var_bak := None;
        file := None |},
     <["ANTHROPIC_API_KEY" := "sk-ant"]> env_with_key,
     Some Base64Error)
  /\ (with_context (HO := undecodable_credentials) PromptEnvContext_init
        env_with_key).1.2 !! "ANTHROPIC_API_KEY" = Some "sk-ant"
  /\ (with_context (HO := undecodable_credentials) PromptEnvContext_init
        env_with_key).1.2 !! "GOOGLE_APPLICATION_CREDENTIALS"
     = env_with_key !! "GOOGLE_APPLICATION_CREDENTIALS".
Proof.
  apply (undecodable_credentials_leave_key_injected (HO := undecodable_credentials)
           PromptEnvContext_init env_with_key "sk-ant" "%%%"); reflexivity.
Defined.

(** ** A line whose content is not a string *)

(** C7 at a failing input.  The body holds the line
    [{"message":{"content":5}}] between the two lines of text.  The line has
    the expected keys and a content that is not a string: it is structurally
    unexpected, yet it is not skipped.  The adapter yields the number as a
    delta, [output += partial_output] raises [TypeError] in the accumulator,
    and [run] ends with that exception after the output [Hi]; the delta
    [ there] that follows is never taken in. *)
Theorem non_string_content_is_yielded_and_raises :
  select_adapter (config_for "ollama/llama3") false = Ollama
  /\ @json_loads reference_runtime line_number
     = Ok (JObj [("message", JObj [("content", JInt 5)])])
  /\ process_completion (RT := reference_runtime) line_number = Ok (Some (JInt 5))
  /\ invoke_ollama (RT := reference_runtime) body_with_number
     = Stream [(JStr "Hi", None); (JInt 5, None); (JStr " there", None)] None
  /\ iterate_invoke_llm (RT := reference_runtime)
       (invoke_ollama (RT := reference_runtime) body_with_number)
     = {| yielded := Stream [text_snapshot "Hi"] (Some TypeError);
          final_tool_responses := [] |}
  /\ run (RT := reference_runtime) (LL := counting_litellm)
       (ollama_provider body_with_number) ollama_inputs
     = {| emitted := [ {| result_ := "Hi"; response := "Hi"; data := JNull |} ];
          run_ending := Raised TypeError;
          final_vars := {| run_output := "Hi"; run_tool_responses := [] |} |}.
Proof. repeat split; vm_compute; reflexivity. Qed.
